(** * The GitHub webhook receiver of [routes/webhook.js]

    A shallow embedding of the Express route of [routes/webhook.js] and
    of the library calls it makes, followed by the properties of the
    handler.

    Conventions.
    - A JavaScript string is represented by the bytes of its UTF-8
      encoding, a Rocq [string]; [new Buffer(s)] is then the byte
      sequence itself and its byte length is [String.length s].
    - A 32-bit word is a [Z] in [0, 2^32), with the wrap-around written
      out.
    - An object used as a dictionary ([request.headers],
      [result.context]) is a [gmap string _]; a parsed JSON object keeps
      its members in order, as an association list.
    - A run of the handler is the list of what it does to the outside
      (log lines, calls on the response, the call of the queue), in
      order. *)

From Stdlib Require Import ZArith List Ascii String Lia Bool.
From stdpp Require Import base option strings gmap.
Import ListNotations.

Set Warnings "-register-all,-notation-for-abbreviation".

Local Open Scope string_scope.
Local Open Scope list_scope.

(** ** Bytes *)

Definition byte_of_ascii (c : ascii) : Z := Z.of_N (N_of_ascii c).

Fixpoint bytes_of_string (s : string) : list Z :=
  match s with
  | EmptyString => []
  | String c rest => byte_of_ascii c :: bytes_of_string rest
  end.

(** [n] bytes of [x], most significant first. *)
Fixpoint big_endian (n : nat) (x : Z) : list Z :=
  match n with
  | O => []
  | S m => Z.land (Z.shiftr x (8 * Z.of_nat m)) 255 :: big_endian m x
  end.

Definition hex_digit (d : Z) : ascii :=
  if (d <? 10)%Z then ascii_of_N (Z.to_N (48 + d))
  else ascii_of_N (Z.to_N (87 + d)).

(** [digest('hex')]: two lowercase digits per byte. *)
Fixpoint hex_of_bytes (bs : list Z) : string :=
  match bs with
  | [] => EmptyString
  | b :: rest =>
      String (hex_digit (Z.shiftr b 4))
        (String (hex_digit (Z.land b 15)) (hex_of_bytes rest))
  end.

(** ** SHA-1 (FIPS 180-4) as a streaming hash, the way [crypto] feeds it *)

Module SHA1.

Definition mask32 : Z := 4294967295.
Definition w32 (x : Z) : Z := Z.land x mask32.
Definition add32 (x y : Z) : Z := w32 (x + y).
Definition rotl (n x : Z) : Z :=
  w32 (Z.lor (Z.shiftl x n) (Z.shiftr x (32 - n))).
Definition not32 (x : Z) : Z := Z.lxor x mask32.

Definition f (t b c d : Z) : Z :=
  if (t <? 20)%Z then Z.lor (Z.land b c) (Z.land (not32 b) d)
  else if (t <? 40)%Z then Z.lxor (Z.lxor b c) d
  else if (t <? 60)%Z then
    Z.lor (Z.lor (Z.land b c) (Z.land b d)) (Z.land c d)
  else Z.lxor (Z.lxor b c) d.

Definition K (t : Z) : Z :=
  if (t <? 20)%Z then 1518500249
  else if (t <? 40)%Z then 1859775393
  else if (t <? 60)%Z then 2400959708
  else 3395469782.

(** The five chaining words. *)
Record chain := Chain { hA : Z; hB : Z; hC : Z; hD : Z; hE : Z }.

Definition initial_chain : chain :=
  Chain 1732584193 4023233417 2562383102 271733878 3285377520.

Fixpoint words_of_bytes (bs : list Z) : list Z :=
  match bs with
  | b0 :: b1 :: b2 :: b3 :: rest =>
      (Z.shiftl b0 24 + Z.shiftl b1 16 + Z.shiftl b2 8 + b3)%Z
        :: words_of_bytes rest
  | _ => []
  end.

(** The message schedule, newest word first: [recent] holds
    [W(t-1), W(t-2), ...]. *)
Fixpoint schedule (n : nat) (recent : list Z) : list Z :=
  match n with
  | O => recent
  | S m =>
      let wt :=
        rotl 1 (Z.lxor (Z.lxor (nth 2 recent 0%Z) (nth 7 recent 0%Z))
                  (Z.lxor (nth 13 recent 0%Z) (nth 15 recent 0%Z))) in
      schedule m (wt :: recent)
  end.

Definition round (st : Z * chain) (wt : Z) : Z * chain :=
  let '(t, Chain a b c d e) := st in
  let temp := add32 (add32 (add32 (add32 (rotl 5 a) (f t b c d)) e) (K t)) wt in
  ((t + 1)%Z, Chain temp a (rotl 30 b) c d).

Definition compress (h : chain) (block : list Z) : chain :=
  let ws := rev (schedule 64 (rev (words_of_bytes block))) in
  let '(_, Chain a b c d e) := fold_left round ws (0%Z, h) in
  Chain (add32 (hA h) a) (add32 (hB h) b) (add32 (hC h) c)
        (add32 (hD h) d) (add32 (hE h) e).

(** A hash in progress: the chaining value, the bytes of the block being
    filled (newest first) with their count, and the bytes absorbed so
    far. *)
Record state := State {
  chaining : chain;
  pending : list Z;
  npending : nat;
  total : Z
}.

Definition init : state := State initial_chain [] 0 0.

Definition absorb (st : state) (b : Z) : state :=
  let buf := b :: pending st in
  if Nat.eqb (S (npending st)) 64
  then State (compress (chaining st) (rev buf)) [] 0 (total st + 1)
  else State (chaining st) buf (S (npending st)) (total st + 1).

Definition update (st : state) (bs : list Z) : state :=
  fold_left absorb bs st.

Definition padding (len : Z) : list Z :=
  128%Z :: repeat 0%Z (Z.to_nat ((55 - len) mod 64))
    ++ big_endian 8 (8 * len).

Definition final (st : state) : list Z :=
  let st' := update st (padding (total st)) in
  let h := chaining st' in
  big_endian 4 (hA h) ++ big_endian 4 (hB h) ++ big_endian 4 (hC h)
    ++ big_endian 4 (hD h) ++ big_endian 4 (hE h).

Definition hash (msg : list Z) : list Z := final (update init msg).

(** The hash as FIPS 180-4 states it, for a message given as a whole:
    the message is padded, the padded message is cut in blocks of 64
    bytes, and the blocks are compressed one after the other from the
    initial chaining value. *)
Fixpoint blocks (n : nat) (bs : list Z) : list (list Z) :=
  match n with
  | O => []
  | S m => firstn 64 bs :: blocks m (skipn 64 bs)
  end.

Definition digest (msg : list Z) : list Z :=
  let padded := msg ++ padding (Z.of_nat (length msg)) in
  let h := fold_left compress (blocks (length padded / 64) padded)
             initial_chain in
  big_endian 4 (hA h) ++ big_endian 4 (hB h) ++ big_endian 4 (hC h)
    ++ big_endian 4 (hD h) ++ big_endian 4 (hE h).

End SHA1.

(** ** HMAC over SHA-1 *)

Definition block_size : nat := 64.

(** The key as an [Hmac] object prepares it: hashed when it is longer
    than a block, then filled with zeros to a block; and that key with
    every byte xored with a pad. *)
Definition hmac_key (key : list Z) : list Z :=
  let k := if Nat.ltb block_size (length key) then SHA1.hash key else key in
  k ++ repeat 0%Z (block_size - length k).

Definition xor_pad (pad : Z) (key : list Z) : list Z :=
  map (fun b => Z.lxor b pad) (hmac_key key).

(** The function the specification names, HMAC-SHA1 of [msg] keyed by
    [key], as RFC 2104 defines it over the hash of FIPS 180-4:
    [H((K xor opad) || H((K xor ipad) || msg))], where [K] is the key
    filled with zeros to the 64 bytes of a block, a longer key being
    hashed first, ipad is the byte 0x36 and opad the byte 0x5C, each
    repeated over the block. *)
Definition HMAC_SHA1 (key msg : list Z) : list Z :=
  let k := if Nat.ltb 64 (length key) then SHA1.digest key else key in
  let K := k ++ repeat 0%Z (64 - length k) in
  let ipad := map (fun b => Z.lxor b 54) K in
  let opad := map (fun b => Z.lxor b 92) K in
  SHA1.digest (opad ++ SHA1.digest (ipad ++ msg)).

(** ** JavaScript values

    The values a parsed webhook body is made of, and [undefined], which
    a missing header or a missing property reads as. The type of numbers
    is left to the engine (see [Engine]): the handler only tests a number
    for truth and renders it in a template. *)

Inductive value {number : Type} : Type :=
| VUndefined
| VNull
| VBool (b : bool)
| VNum (n : number)
| VStr (s : string)
| VArr (items : list value)
| VObj (members : list (string * value)).
Arguments value : clear implicits.

(** What can be handed to the logger or to [JSON.stringify]: a value, or
    one of this module's functions (by name). *)
Inductive any {number : Type} : Type :=
| Val (v : value number)
| Fun (name : string).
Arguments any : clear implicits.

(** The exceptions the handler can end with. *)
Inductive exn {number : Type} : Type :=
| TypeError_read (prop : string) (base : value number)
    (* Cannot read property [prop] of undefined / of null *)
| TypeError_primitive (object : value number)
    (* Cannot convert object to primitive value *)
| RangeError_length
    (* crypto.timingSafeEqual: input buffers must have the same length *)
| SyntaxError_JSON
    (* JSON.parse: the text is not JSON *)
| Error_digest (algorithm : string)
    (* crypto.createHmac: unknown digest *)
| Rejected (reason : value number).
    (* the reason the promise of [queue] was rejected with *)
Arguments exn : clear implicits.

(** What the embedding takes from the JavaScript engine. *)
Class Engine (number : Type) := {
  Number_ToBoolean : number -> bool;
  Number_ToString : number -> string;
  (** Neither an infinity nor NaN. *)
  Number_isFinite : number -> bool;
  (** [JSON.parse] of a text; [None] when it throws a SyntaxError. *)
  JSON_parse : string -> option (value number)
}.

Definition dquote : string := String (ascii_of_nat 34) EmptyString.

Section Values.
Context {number : Type} `{Engine number}.

Local Notation value := (value number) (only parsing).

(** [ToBoolean], the test of [!x], [x ? a : b] and [x && y]. *)
Definition ToBoolean (v : value) : bool :=
  match v with
  | VUndefined | VNull => false
  | VBool b => b
  | VNum n => Number_ToBoolean n
  | VStr s => negb (String.eqb s "")
  | VArr _ | VObj _ => true
  end.

Fixpoint lookup_member (name : string) (members : list (string * value))
  : option value :=
  match members with
  | [] => None
  | (k, v) :: rest => if String.eqb k name then Some v else lookup_member name rest
  end.

(** [ToString], the conversion a template literal applies to each
    substitution. An object is converted by calling its [toString]
    method and then its [valueOf] method. The members of a parsed body
    are never functions, so an object that has a member named [toString]
    of its own hides the method of [Object.prototype] without offering
    one, [valueOf] (its own member or the inherited method, which
    returns the object) yields no primitive either, and the conversion
    throws; every other object is rendered by [Object.prototype]. An
    array is converted by joining the conversions of its elements, with
    nothing for [null] and [undefined]. *)
Fixpoint ToString (v : value) : exn number + string :=
  match v with
  | VUndefined => inr "undefined"
  | VNull => inr "null"
  | VBool true => inr "true"
  | VBool false => inr "false"
  | VNum n => inr (Number_ToString n)
  | VStr s => inr s
  | VArr items =>
      (fix join (l : list value) : exn number + string :=
         match l with
         | [] => inr ""
         | x :: rest =>
             match (match x with
                    | VUndefined | VNull => inr ""
                    | _ => ToString x
                    end) with
             | inl e => inl e
             | inr sx =>
                 match rest with
                 | [] => inr sx
                 | _ =>
                     match join rest with
                     | inl e => inl e
                     | inr sr => inr (sx +:+ "," +:+ sr)
                     end
                 end
             end
         end) items
  | VObj members =>
      match lookup_member "toString" members with
      | Some _ => inl (TypeError_primitive v)
      | None => inr "[object Object]"
      end
  end.

(** The property read [base.name], for the names this module reads
    ([repository], [organization], [events_url], [private]): none of them
    is a property of a string, a number, a boolean or an array, or of
    [Object.prototype]. Reading a property of [undefined] or [null]
    throws. *)
Definition Get (base : value) (name : string) : exn number + value :=
  match base with
  | VUndefined | VNull => inl (TypeError_read name base)
  | VObj members => inr (default VUndefined (lookup_member name members))
  | _ => inr VUndefined
  end.

(** Whether a parsed body has the key [name]. *)
Definition has_key (v : value) (name : string) : bool :=
  match v with
  | VObj members => bool_decide (is_Some (lookup_member name members))
  | _ => false
  end.

(** [x === 'text'] *)
Definition strict_eq_string (v : value) (text : string) : bool :=
  match v with
  | VStr s => String.eqb s text
  | _ => false
  end.

(** *** [JSON.stringify] *)

Definition hex4 (n : Z) : string :=
  String (hex_digit (Z.land (Z.shiftr n 12) 15))
    (String (hex_digit (Z.land (Z.shiftr n 8) 15))
       (String (hex_digit (Z.land (Z.shiftr n 4) 15))
          (String (hex_digit (Z.land n 15)) EmptyString))).

Definition quote_char (c : ascii) : string :=
  let n := byte_of_ascii c in
  if (n =? 34)%Z then "\" +:+ dquote
  else if (n =? 92)%Z then "\\"
  else if (n =? 8)%Z then "\b"
  else if (n =? 12)%Z then "\f"
  else if (n =? 10)%Z then "\n"
  else if (n =? 13)%Z then "\r"
  else if (n =? 9)%Z then "\t"
  else if (n <? 32)%Z then "\u" +:+ hex4 n
  else String c EmptyString.

Fixpoint quote_chars (s : string) : string :=
  match s with
  | EmptyString => EmptyString
  | String c rest => quote_char c +:+ quote_chars rest
  end.

Definition Quote (s : string) : string := dquote +:+ quote_chars s +:+ dquote.

(** The text of a value that has one; [undefined] inside an array is
    written [null], a member whose value is [undefined] is left out. *)
Fixpoint stringify (v : value) : string :=
  match v with
  | VUndefined => "null"
  | VNull => "null"
  | VBool true => "true"
  | VBool false => "false"
  | VNum n => if Number_isFinite n then Number_ToString n else "null"
  | VStr s => Quote s
  | VArr items =>
      "[" +:+ (fix elements (l : list value) : string :=
                match l with
                | [] => ""
                | x :: rest =>
                    match rest with
                    | [] => stringify x
                    | _ => stringify x +:+ "," +:+ elements rest
                    end
                end) items +:+ "]"
  | VObj members =>
      "{" +:+ (fix fields (l : list (string * value)) (first : bool) : string :=
                match l with
                | [] => ""
                | (k, VUndefined) :: rest => fields rest first
                | (k, x) :: rest =>
                    (if first then "" else ",") +:+ Quote k +:+ ":"
                      +:+ stringify x +:+ fields rest false
                end) members true +:+ "}"
  end.

(** [JSON.stringify(x)]: [undefined] (here [None]) for [undefined] and
    for a function, the JSON text otherwise. *)
Definition JSON_stringify (x : any number) : option string :=
  match x with
  | Fun _ => None
  | Val VUndefined => None
  | Val v => Some (stringify v)
  end.

End Values.

(** ** [crypto]: HMAC objects and the constant-time comparison *)

(** The digests the handler asks [crypto.createHmac] for. *)
Inductive digest_name := sha1.

(** An [Hmac] object: the inner hash, which has absorbed the key xor
    ipad and then absorbs whatever [update] is given, and the key xor
    opad kept for [digest]. *)
Record Hmac := { inner : SHA1.state; outer_key : list Z }.

Definition createHmac (algorithm : digest_name) (key : string) : Hmac :=
  match algorithm with
  | sha1 =>
      {| inner := SHA1.update SHA1.init (xor_pad 54 (bytes_of_string key));
         outer_key := xor_pad 92 (bytes_of_string key) |}
  end.

Definition Hmac_update (h : Hmac) (data : string) : Hmac :=
  {| inner := SHA1.update (inner h) (bytes_of_string data);
     outer_key := outer_key h |}.

Definition Hmac_digest_hex (h : Hmac) : string :=
  hex_of_bytes (SHA1.hash (outer_key h ++ SHA1.final (inner h))).

(** [new Buffer(s)]: the UTF-8 bytes of the string. *)
Definition Buffer (s : string) : list Z := bytes_of_string s.

Fixpoint equal_bytes (a b : list Z) : bool :=
  match a, b with
  | [], [] => true
  | x :: a', y :: b' => (x =? y)%Z && equal_bytes a' b'
  | _, _ => false
  end.

(** ['sha1=' + crypto.createHmac('sha1', secret).update(data).digest('hex')] *)
Definition computedSignature (secret data : string) : string :=
  "sha1=" +:+ Hmac_digest_hex (Hmac_update (createHmac sha1 secret) data).

(** ** The handler *)

Section Handler.
Context {number : Type} `{Engine number}.

Local Notation value := (value number) (only parsing).
Local Notation any := (any number) (only parsing).
Local Notation exn := (exn number) (only parsing).

(** [crypto.timingSafeEqual(a, b)] throws when the lengths differ. *)
Definition timingSafeEqual (a b : list Z) : exn + bool :=
  if Nat.eqb (length a) (length b) then inr (equal_bytes a b)
  else inl RangeError_length.

(** The Express request: the headers Node parsed (lower-case names) and
    the raw body. *)
Record IncomingMessage := {
  headers : gmap string string;
  body : string
}.

(** [request.headers[name]] as a value: the string, or [undefined]. *)
Definition header (request : IncomingMessage) (name : string) : value :=
  match headers request !! name with
  | Some s => VStr s
  | None => VUndefined
  end.

(** The payload literal the handler builds. *)
Record Payload := {
  payload_body : value;
  etag : Z;
  fetchedAt : string;
  payload_type : string;
  deliveryId : value
}.

(** The work item, an instance of the class [Request]. A field that was
    never assigned is [None]. *)
Record Request := {
  type : string;
  url : string;
  payload : option Payload;
  requiresLock : option bool;
  context : gmap string value
}.

(** Modelled from the spec: the class [Request] of [lib/request] is not
    among the sources. The specification describes the work item as a
    type tag, a target URL, a payload, a locking flag and a context that
    carries the private-access mark only when the handler sets it; so the
    constructor stores the tag and the URL and starts from a context
    without members. *)
Definition new_Request (type_tag target : string) : Request :=
  {| type := type_tag; url := target; payload := None;
     requiresLock := None; context := ∅ |}.

(** The fate of the promise that [crawlerService.queue] returns. *)
Inductive promise :=
| Fulfills (result : value)
| Rejects (reason : value)
| Pending.

(** The hosting service handed to [setup]: its configured provider
    ([options.queuing.events.provider]) and its [queue] operation. Its
    logger ([crawler.logger]) is the [LogCall] events below. *)
Record Service := {
  provider : value;
  queue : Request -> string -> promise
}.

Inductive level := Verbose | Info | Warn | Error.

(** What happens during a run, in order: the calls the handler makes on
    the logger, the response and the queue, the settling of the promise
    it waits for, and the error its driver hands to [next]. *)
Inductive event :=
| LogCall (lvl : level) (args : list any)
| StatusCall (code : Z)
| SetHeaderCall (name text : string)
| EndCall (chunk : option string)
| QueueCall (item : Request) (queue_name : string)
| PromiseSettled (outcome : value + value)
| NextCall (error : exn).

(** A generator body: it returns, throws, acts on the outside, or yields
    a promise and goes on with what the driver resumes it with (a value
    given to [next], or an exception given to [throw]). *)
Inductive prog (A : Type) : Type :=
| Ret (a : A)
| Throw (e : exn)
| Do (ev : event) (k : prog A)
| Yield (p : promise) (k : exn + value -> prog A).
Arguments Ret {A} a.
Arguments Throw {A} e.
Arguments Do {A} ev k.
Arguments Yield {A} p k.

Fixpoint bind {A B : Type} (m : prog A) (f : A -> prog B) : prog B :=
  match m with
  | Ret a => f a
  | Throw e => Throw e
  | Do ev k => Do ev (bind k f)
  | Yield p k => Yield p (fun r => bind (k r) f)
  end.

Notation "x <- m ;; k" := (bind m (fun x => k))
  (at level 100, m at next level, right associativity).
Notation "m ;;; k" := (bind m (fun _ => k))
  (at level 100, right associativity).

Definition act (ev : event) : prog unit := Do ev (Ret tt).

(** A library call that may throw. *)
Definition lift {A : Type} (r : exn + A) : prog A :=
  match r with
  | inl e => Throw e
  | inr a => Ret a
  end.

(** [yield p]: an exception given to [throw] is raised at the [yield],
    which no [try] block of the handler encloses. *)
Definition yield (p : promise) : prog value := Yield p lift.

Definition delivery_of (request : IncomingMessage) : any :=
  Val (VObj [("delivery", header request "x-github-delivery")]).

(** [function warn(request, response, message)]: the parameter
    [message] is not used; the function [fatal] is what is logged and
    what is given to [JSON.stringify]. *)
Definition warn (request : IncomingMessage) (message : string) : prog unit :=
  act (LogCall Warn [Fun "fatal"; delivery_of request]) ;;;
  act (StatusCall 500) ;;;
  act (SetHeaderCall "content-type" "text/plain") ;;;
  act (EndCall (JSON_stringify (Fun "fatal"))).

(** [function fatal(request, response, error)] *)
Definition fatal (request : IncomingMessage) (error : string) : prog unit :=
  act (LogCall Error [Val (VStr error); delivery_of request]) ;;;
  act (StatusCall 400) ;;;
  act (SetHeaderCall "content-type" "text/plain") ;;;
  act (EndCall (JSON_stringify (Val (VStr error)))).

(** A header that [!h] finds present: a string that is not empty. *)
Definition truthy_header (request : IncomingMessage) (name : string)
  : option string :=
  match headers request !! name with
  | Some s => if String.eqb s "" then None else Some s
  | None => None
  end.

Definition ignored_events : list string := ["check_run"; "check_suite"].

Definition includes (l : list string) (s : string) : bool :=
  existsb (String.eqb s) l.

(** The generator given to [router.post]. [crawlerService] and
    [webhookSecret] are the two module variables, written by [setup]
    before any request arrives; [now] is what
    [moment.utc().toISOString()] returns during the request. *)
Definition post (crawlerService : Service) (webhookSecret : string)
    (now : string) (request : IncomingMessage) : prog unit :=
  if negb (strict_eq_string (provider crawlerService) "webhook") then
    warn request "Webhooks not enabled"
  else
  let delivery := header request "x-github-delivery" in
  act (LogCall Verbose [Val (VStr "Received"); Val (VStr "Webhook event");
                        delivery_of request]) ;;;
  match truthy_header request "x-hub-signature",
        truthy_header request "x-github-event" with
  | Some signature, Some eventType =>
      if includes ignored_events eventType then
        act (LogCall Info
               [Val (VStr "Ignored"); Val (VStr "Webhook event");
                Val (VObj [("delivery", delivery);
                           ("eventType", VStr eventType);
                           ("signature", VStr signature)])]) ;;;
        act (StatusCall 200) ;;;
        act (EndCall None)
      else
      let data := body request in
      let computed := computedSignature webhookSecret data in
      same <- lift (timingSafeEqual (Buffer signature) (Buffer computed)) ;;
      (if negb same then
         act (LogCall Info
                [Val (VStr "X-Hub-Signature");
                 Val (VStr "does not match blob signature");
                 Val (VObj [("delivery", delivery);
                            ("signature", VStr signature);
                            ("computedSignature", VStr computed);
                            ("eventType", VStr eventType);
                            ("body", VStr data)])])
       else Ret tt) ;;;
      event <- lift (match JSON_parse (body request) with
                    | Some v => inr v
                    | None => inl SyntaxError_JSON
                    end) ;;
      repository <- lift (Get event "repository") ;;
      eventsUrl <- (if ToBoolean repository
                    then lift (Get repository "events_url")
                    else organization <- lift (Get event "organization") ;;
                         lift (Get organization "events_url")) ;;
      urlText <- lift (ToString eventsUrl) ;;
      deliveryText <- lift (ToString delivery) ;;
      let result :=
        new_Request "event_trigger" (urlText +:+ "/" +:+ deliveryText) in
      let result :=
        {| type := type result; url := url result;
           payload := Some {| payload_body := event; etag := 1;
                              fetchedAt := now; payload_type := eventType;
                              deliveryId := delivery |};
           requiresLock := requiresLock result;
           context := context result |} in
      let result :=
        {| type := type result; url := url result;
           payload := payload result;
           requiresLock := Some false;
           context := context result |} in
      is_private <- (if ToBoolean repository
                     then p <- lift (Get repository "private") ;;
                          Ret (ToBoolean p)
                     else Ret false) ;;
      let result :=
        if is_private : bool then
          {| type := type result; url := url result;
             payload := payload result;
             requiresLock := requiresLock result;
             context := <["repoType" := VStr "private"]> (context result) |}
        else result in
      act (QueueCall result "events") ;;;
      _ <- yield (queue crawlerService result "events") ;;
      queuedText <- lift (ToString eventsUrl) ;;
      act (LogCall Info
             [Val (VStr "Queued");
              Val (VStr ("Webhook event for " +:+ queuedText));
              delivery_of request]) ;;;
      act (StatusCall 200) ;;;
      act (EndCall None)
  | _, _ =>
      fatal request "Missing signature or event type on GitHub webhook"
  end.

(** Modelled from the spec: [wrap] of [middleware/promiseWrap] is not
    among the sources. The specification has the handler suspend at its
    one [yield] until the promise of the enqueue call settles, resume
    with the result when it is fulfilled, and fail with the reason when
    it is rejected, the failure going to the host's error middleware
    ([next]). A promise that never settles leaves the handler
    suspended. *)
Fixpoint wrap (g : prog unit) : list event :=
  match g with
  | Ret _ => []
  | Throw e => [NextCall e]
  | Do ev k => ev :: wrap k
  | Yield p k =>
      match p with
      | Fulfills v => PromiseSettled (inr v) :: wrap (k (inr v))
      | Rejects r => PromiseSettled (inl r) :: wrap (k (inl (Rejected r)))
      | Pending => []
      end
  end.

(** [setup(service, secret)] stores its arguments in the module
    variables and returns the router, whose one route is the wrapped
    generator: what a POST does, given the time and the request. *)
Definition setup (service : Service) (secret : string)
  : string -> IncomingMessage -> list event :=
  fun now request => wrap (post service secret now request).

End Handler.

(** ** An engine to run the handler on concrete requests

    [JSON.parse] as ECMA-404 defines JSON texts. A number literal is
    read as the double nearest to it, ties going to the even mantissa,
    a literal too large as an infinity and one too small as zero; the
    double is kept as the decimal [Number::toString] prints for it, the
    shortest that is read back as the same double. An escaped surrogate
    pair becomes the UTF-8 bytes of its code point, a lone surrogate
    those of U+FFFD, which is how [Buffer] would encode it. *)

Module JSON.

(** A number: [Decimal m e] is the finite double whose shortest decimal
    is [m * 10^e], [m] without a zero at its end; [Decimal 0 0] is
    zero. *)
Inductive decimal :=
| Decimal (mantissa exponent : Z)
| NegativeZero
| Infinity (negative : bool).

Definition code (c : ascii) : Z := byte_of_ascii c.
Definition char (n : Z) : ascii := ascii_of_N (Z.to_N n).

Definition is_ws (c : ascii) : bool :=
  let n := code c in
  (n =? 32)%Z || (n =? 9)%Z || (n =? 10)%Z || (n =? 13)%Z.

Fixpoint skip_ws (s : string) : string :=
  match s with
  | String c rest => if is_ws c then skip_ws rest else s
  | EmptyString => s
  end.

Definition is_digit (c : ascii) : bool :=
  ((48 <=? code c) && (code c <=? 57))%Z.

(** Reads decimal digits onto [acc]; returns the number read, how many
    digits it had, and the rest. *)
Fixpoint take_digits (s : string) (acc : Z) (n : Z) : Z * Z * string :=
  match s with
  | String c rest =>
      if is_digit c then take_digits rest (10 * acc + (code c - 48))%Z (n + 1)%Z
      else (acc, n, s)
  | EmptyString => (acc, n, s)
  end.

Fixpoint strip_prefix (p s : string) : option string :=
  match p, s with
  | EmptyString, _ => Some s
  | String a p', String b s' => if Ascii.eqb a b then strip_prefix p' s' else None
  | String _ _, EmptyString => None
  end.

(** *** Doubles *)

(** The magnitude of a double: zero, [M * 2^E] with [2^52 <= M < 2^53]
    and [E] from -1074 to 971 or with [M < 2^52] and [E = -1074], or
    beyond the largest double. *)
Inductive magnitude := Zero | Finite (M E : Z) | Overflow.

(** [a * 10^x * 2^y] as a fraction. *)
Definition fraction (a x y : Z) : Z * Z :=
  ((a * (if (0 <=? x)%Z then 10 ^ x else 1)
      * (if (0 <=? y)%Z then 2 ^ y else 1))%Z,
   ((if (0 <=? x)%Z then 1 else 10 ^ (- x))
      * (if (0 <=? y)%Z then 1 else 2 ^ (- y)))%Z).

(** [num / den] rounded to the nearest integer, a tie to the even one. *)
Definition round_half_even (num den : Z) : Z :=
  let q := (num / den)%Z in
  let r := (num mod den)%Z in
  if (2 * r <? den)%Z then q
  else if (den <? 2 * r)%Z then (q + 1)%Z
  else if Z.even q then q else (q + 1)%Z.

(** The double nearest to [m * 10^e], for [m >= 0]. The first two tests
    set aside the literals that are out of range whatever their digits,
    before any power is computed. *)
Definition nearest (m e : Z) : magnitude :=
  if (m =? 0)%Z then Zero
  else if ((0 <=? e) && (1025 <=? Z.log2 m + 3 * e))%Z then Overflow
  else if ((e <? 0) && (Z.log2 m + 3 * e <? -1080))%Z then Zero
  else
    let '(a, b) := fraction m e 0 in
    let l := (Z.log2 a - Z.log2 b)%Z in
    let '(a', b') := fraction m e (- l) in
    let l := if (a' <? b')%Z then (l - 1)%Z else l in
    let E := Z.max (l - 52) (-1074) in
    let '(num, den) := fraction m e (- E) in
    let M := round_half_even num den in
    let '(M, E) := if (M =? 2 ^ 53)%Z then (2 ^ 52, E + 1)%Z else (M, E) in
    if (M =? 0)%Z then Zero
    else if (971 <? E)%Z then Overflow
    else Finite M E.

(** [M * 2^E < 10^n] *)
Definition below (M E n : Z) : bool :=
  let '(a, b) := fraction M (- n) E in (a <? b)%Z.

Fixpoint first_below (fuel : nat) (M E n : Z) : Z :=
  match fuel with
  | O => n
  | S fuel' => if below M E n then n else first_below fuel' M E (n + 1)%Z
  end.

(** The [n] with [10^(n-1) <= M * 2^E < 10^n], looked for from an
    estimate that is at most three too small. *)
Definition order (M E : Z) : Z :=
  first_below 5 M E ((Z.log2 M + E) * 30103 / 100000 - 1)%Z.

(** Whether [s * 10^x] is read as the double [M * 2^E]. *)
Definition reads_as (s x M E : Z) : bool :=
  match nearest s x with
  | Finite M' E' => ((M' =? M) && (E' =? E))%Z
  | _ => false
  end.

(** The digits [Number::toString] prints: with [k] digits, for
    [k = 1, 2, ...], the two decimals around the double; the first that
    is read back as the double, the nearer of the two when both are.
    Seventeen digits always are. *)
Fixpoint shortest_from (fuel : nat) (M E n k : Z) : Z * Z :=
  let '(a, b) := fraction M (k - n) E in
  let near := round_half_even a b in
  let far := if (near =? a / b)%Z then (a / b + 1)%Z else (a / b)%Z in
  match fuel with
  | O => (near, (n - k)%Z)
  | S fuel' =>
      if reads_as near (n - k) M E then (near, (n - k)%Z)
      else if reads_as far (n - k) M E then (far, (n - k)%Z)
      else shortest_from fuel' M E n (k + 1)%Z
  end.

Definition shortest (M E : Z) : Z * Z := shortest_from 17 M E (order M E) 1.

Fixpoint drop_zeros (fuel : nat) (m e : Z) : Z * Z :=
  match fuel with
  | O => (m, e)
  | S fuel' =>
      if (m mod 10 =? 0)%Z then drop_zeros fuel' (m / 10)%Z (e + 1)%Z else (m, e)
  end.

(** The number a literal [m * 10^e] denotes, [m >= 0], with its sign. *)
Definition of_literal (negative : bool) (m e : Z) : decimal :=
  match nearest m e with
  | Zero => if negative then NegativeZero else Decimal 0 0
  | Overflow => Infinity negative
  | Finite M E =>
      let '(s, x) := shortest M E in
      let '(s, x) := drop_zeros (S (Z.to_nat (Z.log2 s))) s x in
      Decimal (if negative then (- s)%Z else s) x
  end.

(** *** Number literals *)

Definition parse_exponent (s : string) : option (Z * string) :=
  match s with
  | String c rest =>
      if ((code c =? 101) || (code c =? 69))%Z then
        let '(negative, rest) :=
          match rest with
          | String d rest' =>
              if (code d =? 45)%Z then (true, rest')
              else if (code d =? 43)%Z then (false, rest')
              else (false, rest)
          | EmptyString => (false, rest)
          end in
        let '(e, n, rest) := take_digits rest 0 0 in
        if (n =? 0)%Z then None
        else Some (if negative : bool then (- e)%Z else e, rest)
      else Some (0%Z, s)
  | EmptyString => Some (0%Z, s)
  end.

Definition parse_fraction (int_part : Z) (s : string) : option (Z * Z * string) :=
  match s with
  | String c rest =>
      if (code c =? 46)%Z then
        let '(m, n, rest) := take_digits rest int_part 0 in
        if (n =? 0)%Z then None else Some (m, n, rest)
      else Some (int_part, 0%Z, s)
  | EmptyString => Some (int_part, 0%Z, s)
  end.

Definition parse_number (s : string) : option (decimal * string) :=
  let '(negative, s) :=
    match s with
    | String c rest => if (code c =? 45)%Z then (true, rest) else (false, s)
    | EmptyString => (false, s)
    end in
  int_part ← match s with
             | String c rest =>
                 if (code c =? 48)%Z then Some (0%Z, rest)
                 else if is_digit c then
                   let '(m, _, rest) := take_digits s 0 0 in Some (m, rest)
                 else None
             | EmptyString => None
             end;
  '(m, places, rest) ← parse_fraction int_part.1 int_part.2;
  '(e, rest) ← parse_exponent rest;
  Some (of_literal negative m (e - places), rest).

Definition hex_value (c : ascii) : option Z :=
  let n := code c in
  if ((48 <=? n) && (n <=? 57))%Z then Some (n - 48)%Z
  else if ((97 <=? n) && (n <=? 102))%Z then Some (n - 87)%Z
  else if ((65 <=? n) && (n <=? 70))%Z then Some (n - 55)%Z
  else None.

(** The UTF-8 bytes of a code point. *)
Definition utf8 (cp : Z) : string :=
  if (cp <? 128)%Z then String (char cp) EmptyString
  else if (cp <? 2048)%Z then
    String (char (192 + Z.shiftr cp 6))
      (String (char (128 + Z.land cp 63)) EmptyString)
  else if (cp <? 65536)%Z then
    String (char (224 + Z.shiftr cp 12))
      (String (char (128 + Z.land (Z.shiftr cp 6) 63))
         (String (char (128 + Z.land cp 63)) EmptyString))
  else
    String (char (240 + Z.shiftr cp 18))
      (String (char (128 + Z.land (Z.shiftr cp 12) 63))
         (String (char (128 + Z.land (Z.shiftr cp 6) 63))
            (String (char (128 + Z.land cp 63)) EmptyString))).

Definition replacement : string := utf8 65533.

(** A high surrogate read from an escape and not yet paired. *)
Definition flush (high : option Z) : string :=
  match high with
  | Some _ => replacement
  | None => EmptyString
  end.

Definition escape_unit (high : option Z) (u : Z) : string * option Z :=
  if ((55296 <=? u) && (u <? 56320))%Z then (flush high, Some u)
  else if ((56320 <=? u) && (u <? 57344))%Z then
    match high with
    | Some h => (utf8 (65536 + (h - 55296) * 1024 + (u - 56320)), None)
    | None => (replacement, None)
    end
  else (flush high +:+ utf8 u, None).

Definition simple_escape (c : ascii) : option Z :=
  let n := code c in
  if (n =? 34)%Z then Some 34%Z
  else if (n =? 92)%Z then Some 92%Z
  else if (n =? 47)%Z then Some 47%Z
  else if (n =? 98)%Z then Some 8%Z
  else if (n =? 102)%Z then Some 12%Z
  else if (n =? 110)%Z then Some 10%Z
  else if (n =? 114)%Z then Some 13%Z
  else if (n =? 116)%Z then Some 9%Z
  else None.

(** Reads a string after its opening quote, up to the closing one. *)
Fixpoint parse_string (s : string) (high : option Z) : option (string * string) :=
  match s with
  | EmptyString => None
  | String c rest =>
      if (code c =? 34)%Z then Some (flush high, rest)
      else if (code c =? 92)%Z then
        match rest with
        | String e rest1 =>
            if (code e =? 117)%Z then
              match rest1 with
              | String h1 (String h2 (String h3 (String h4 rest2))) =>
                  a ← hex_value h1; b ← hex_value h2;
                  c' ← hex_value h3; d ← hex_value h4;
                  let '(out, high') :=
                    escape_unit high (4096 * a + 256 * b + 16 * c' + d) in
                  '(text, after) ← parse_string rest2 high';
                  Some (out +:+ text, after)
              | _ => None
              end
            else
              n ← simple_escape e;
              '(text, after) ← parse_string rest1 None;
              Some (flush high +:+ String (char n) text, after)
        | EmptyString => None
        end
      else if (code c <? 32)%Z then None
      else
        '(text, after) ← parse_string rest None;
        Some (flush high +:+ String c text, after)
  end.

(** The array index a key denotes, when it is the canonical text of an
    integer below [2^32 - 1]. *)
Definition array_index (k : string) : option Z :=
  match k with
  | EmptyString => None
  | String c rest =>
      if is_digit c && (negb (code c =? 48)%Z || String.eqb rest "") then
        let '(n, _, after) := take_digits k 0 0 in
        if String.eqb after "" && (n <? 4294967295)%Z then Some n else None
      else None
  end.

Fixpoint replace_member {A : Type} (k : string) (v : A)
    (members : list (string * A)) : list (string * A) :=
  match members with
  | [] => []
  | (k', v') :: rest =>
      if String.eqb k' k then (k', v) :: rest
      else (k', v') :: replace_member k v rest
  end.

Fixpoint insert_member {A : Type} (k : string) (v : A)
    (members : list (string * A)) : list (string * A) :=
  match members with
  | [] => [(k, v)]
  | (k', v') :: rest =>
      match array_index k, array_index k' with
      | Some n, Some n' =>
          if (n <? n')%Z then (k, v) :: members
          else (k', v') :: insert_member k v rest
      | Some _, None => (k, v) :: members
      | None, _ => (k', v') :: insert_member k v rest
      end
  end.

(** The members of an object in the order JavaScript lists them: the
    keys that are array indices first, in ascending order, then the
    other keys in the order of their first appearance. A repeated key
    keeps its place and takes its last value. *)
Definition set_member {A : Type} (k : string) (v : A)
    (members : list (string * A)) : list (string * A) :=
  if existsb (fun member => String.eqb (fst member) k) members
  then replace_member k v members
  else insert_member k v members.

Fixpoint parse_value (fuel : nat) (s : string) : option (value decimal * string) :=
  match fuel with
  | O => None
  | S fuel' =>
      match skip_ws s with
      | EmptyString => None
      | String c rest =>
          if (code c =? 123)%Z then
            match skip_ws rest with
            | String c' rest' =>
                if (code c' =? 125)%Z then Some (VObj [], rest')
                else parse_members fuel' rest []
            | EmptyString => None
            end
          else if (code c =? 91)%Z then
            match skip_ws rest with
            | String c' rest' =>
                if (code c' =? 93)%Z then Some (VArr [], rest')
                else parse_elements fuel' rest []
            | EmptyString => None
            end
          else if (code c =? 34)%Z then
            '(text, after) ← parse_string rest None;
            Some (VStr text, after)
          else
            match strip_prefix "true" (String c rest),
                  strip_prefix "false" (String c rest),
                  strip_prefix "null" (String c rest) with
            | Some after, _, _ => Some (VBool true, after)
            | _, Some after, _ => Some (VBool false, after)
            | _, _, Some after => Some (VNull, after)
            | _, _, _ =>
                '(n, after) ← parse_number (String c rest);
                Some (VNum n, after)
            end
      end
  end
with parse_elements (fuel : nat) (s : string) (seen : list (value decimal))
  : option (value decimal * string) :=
  match fuel with
  | O => None
  | S fuel' =>
      '(v, after) ← parse_value fuel' s;
      match skip_ws after with
      | String c rest =>
          if (code c =? 44)%Z then parse_elements fuel' rest (v :: seen)
          else if (code c =? 93)%Z then Some (VArr (rev (v :: seen)), rest)
          else None
      | EmptyString => None
      end
  end
with parse_members (fuel : nat) (s : string) (seen : list (string * value decimal))
  : option (value decimal * string) :=
  match fuel with
  | O => None
  | S fuel' =>
      match skip_ws s with
      | String q rest =>
          if (code q =? 34)%Z then
            '(k, after) ← parse_string rest None;
            match skip_ws after with
            | String colon rest' =>
                if (code colon =? 58)%Z then
                  '(v, after') ← parse_value fuel' rest';
                  match skip_ws after' with
                  | String c rest'' =>
                      if (code c =? 44)%Z
                      then parse_members fuel' rest'' (set_member k v seen)
                      else if (code c =? 125)%Z
                      then Some (VObj (set_member k v seen), rest'')
                      else None
                  | EmptyString => None
                  end
                else None
            | EmptyString => None
            end
          else None
      | EmptyString => None
      end
  end.

(** Every recursive call follows at least one character read, and a
    call that loops follows two, so twice the length is fuel enough. *)
Definition parse (text : string) : option (value decimal) :=
  '(v, after) ← parse_value (2 * String.length text + 2) text;
  match skip_ws after with
  | EmptyString => Some v
  | String _ _ => None
  end.

(** *** Numbers as text, ECMAScript's [Number::toString] *)

Fixpoint digits (fuel : nat) (n : Z) (acc : string) : string :=
  match fuel with
  | O => acc
  | S fuel' =>
      let acc' := String (char (48 + n mod 10)) acc in
      if (n <? 10)%Z then acc' else digits fuel' (n / 10)%Z acc'
  end.

Definition natural (n : Z) : string := digits (S (Z.to_nat (Z.log2 n))) n "".

Fixpoint zeros (n : nat) : string :=
  match n with
  | O => ""
  | S m => String "0" (zeros m)
  end.

Definition finite_to_string (mantissa exponent : Z) : string :=
  if (mantissa =? 0)%Z then "0" else
  let sign := if (mantissa <? 0)%Z then "-" else "" in
  let '(s, e) := drop_zeros (S (Z.to_nat (Z.log2 (Z.abs mantissa))))
                   (Z.abs mantissa) exponent in
  let ds := natural s in
  let k := Z.of_nat (String.length ds) in
  let n := (k + e)%Z in
  sign +:+
  (if ((k <=? n) && (n <=? 21))%Z then ds +:+ zeros (Z.to_nat (n - k))
   else if ((0 <? n) && (n <=? 21))%Z then
     substring 0 (Z.to_nat n) ds +:+ "." +:+
     substring (Z.to_nat n) (Z.to_nat (k - n)) ds
   else if ((-6 <? n) && (n <=? 0))%Z then
     "0." +:+ zeros (Z.to_nat (- n)) +:+ ds
   else
     let ex := (n - 1)%Z in
     let exs := (if (ex <? 0)%Z then "-" else "+") +:+ natural (Z.abs ex) in
     if (k =? 1)%Z then ds +:+ "e" +:+ exs
     else substring 0 1 ds +:+ "." +:+ substring 1 (Z.to_nat (k - 1)) ds
            +:+ "e" +:+ exs).

Definition to_string (d : decimal) : string :=
  match d with
  | Decimal mantissa exponent => finite_to_string mantissa exponent
  | NegativeZero => "0"
  | Infinity false => "Infinity"
  | Infinity true => "-Infinity"
  end.

Definition to_boolean (d : decimal) : bool :=
  match d with
  | Decimal mantissa _ => negb (mantissa =? 0)%Z
  | NegativeZero => false
  | Infinity _ => true
  end.

Definition is_finite (d : decimal) : bool :=
  match d with
  | Infinity _ => false
  | _ => true
  end.

#[global] Instance engine : Engine decimal := {
  Number_ToBoolean := to_boolean;
  Number_ToString := to_string;
  Number_isFinite := is_finite;
  JSON_parse := parse
}.

(** Writes a JSON text with apostrophes for its quotation marks. *)
Fixpoint text (s : string) : string :=
  match s with
  | EmptyString => EmptyString
  | String c rest =>
      String (if (code c =? 39)%Z then char 34 else c) (text rest)
  end.

End JSON.

(** ** What a run leaves behind *)

Section Observations.
Context {number : Type}.

Local Notation value := (value number) (only parsing).
Local Notation event := (@event number) (only parsing).
Local Notation Request := (@Request number) (only parsing).

(** The HTTP response as Express holds it. *)
Record Response := {
  statusCode : Z;
  response_headers : gmap string string;
  sent : option string;
  finished : bool
}.

Definition fresh_response : Response :=
  {| statusCode := 200; response_headers := ∅; sent := None; finished := false |}.

Definition apply_event (r : Response) (ev : event) : Response :=
  match ev with
  | StatusCall c =>
      {| statusCode := c; response_headers := response_headers r;
         sent := sent r; finished := finished r |}
  | SetHeaderCall k v =>
      {| statusCode := statusCode r;
         response_headers := <[k := v]> (response_headers r);
         sent := sent r; finished := finished r |}
  | EndCall chunk =>
      {| statusCode := statusCode r; response_headers := response_headers r;
         sent := chunk; finished := true |}
  | _ => r
  end.

(** The response once the run is over. *)
Definition response_after (tr : list event) : Response :=
  fold_left apply_event tr fresh_response.

Definition touches_response (ev : event) : bool :=
  match ev with
  | StatusCall _ | SetHeaderCall _ _ | EndCall _ => true
  | _ => false
  end.

(** The calls of [crawlerService.queue], in order. *)
Fixpoint enqueued (tr : list event) : list (Request * string) :=
  match tr with
  | [] => []
  | QueueCall item name :: rest => (item, name) :: enqueued rest
  | _ :: rest => enqueued rest
  end.

(** The calls on the response, in order. *)
Definition response_calls (tr : list event) : list event :=
  List.filter touches_response tr.

(** The error the run handed to [next], if it ended that way. *)
Fixpoint failure (tr : list event) : option (exn number) :=
  match tr with
  | [] => None
  | [NextCall e] => Some e
  | _ :: rest => failure rest
  end.

(** The log lines of a level, in order. *)
Fixpoint logged (lvl : level) (tr : list event) : list (list (any number)) :=
  match tr with
  | [] => []
  | LogCall l args :: rest =>
      match l, lvl with
      | Verbose, Verbose | Info, Info | Warn, Warn | Error, Error =>
          args :: logged lvl rest
      | _, _ => logged lvl rest
      end
  | _ :: rest => logged lvl rest
  end.

End Observations.

(** ** The pieces of a run that reaches the queue

    Names for what the handler has in hand when it calls
    [crawlerService.queue], used to state its properties. *)

Section Pieces.
Context {number : Type} `{Engine number}.

Local Notation value := (value number) (only parsing).
Local Notation event := (@event number) (only parsing).
Local Notation promise := (@promise number) (only parsing).
Local Notation Request := (@Request number) (only parsing).

(** The first log line of every run that finds webhooks enabled. *)
Definition received_line (request : IncomingMessage) : event :=
  LogCall Verbose
    [Val (VStr "Received"); Val (VStr "Webhook event"); delivery_of request].

(** The log line written when the signatures differ. *)
Definition mismatch_line (request : IncomingMessage)
    (signature computed eventType : string) : event :=
  LogCall Info
    [Val (VStr "X-Hub-Signature"); Val (VStr "does not match blob signature");
     Val (VObj [("delivery", header request "x-github-delivery");
                ("signature", VStr signature);
                ("computedSignature", VStr computed);
                ("eventType", VStr eventType);
                ("body", VStr (body request))])].

(** [event.repository && event.repository.private], as a boolean. *)
Definition private_flag (repository : value) : bool :=
  ToBoolean repository &&
  match Get repository "private" with
  | inr p => ToBoolean p
  | inl _ => false
  end.

(** The text a template literal puts for [deliveryId]. *)
Definition delivery_text (request : IncomingMessage) : string :=
  match headers request !! "x-github-delivery" with
  | Some s => s
  | None => "undefined"
  end.

(** The value of [result] when [queue] is called, [urlText] being the
    text of the events URL. *)
Definition result_at_queue (now : string) (request : IncomingMessage)
    (eventType : string) (event : value) (urlText : string) (private : bool)
  : Request :=
  {| type := "event_trigger";
     url := urlText +:+ "/" +:+ delivery_text request;
     payload := Some {| payload_body := event; etag := 1; fetchedAt := now;
                        payload_type := eventType;
                        deliveryId := header request "x-github-delivery" |};
     requiresLock := Some false;
     context := if private then <["repoType" := VStr "private"]> ∅ else ∅ |}.

(** What follows the call of [queue], by the fate of its promise. *)
Definition after_queue (request : IncomingMessage) (urlText : string)
    (p : promise) : list event :=
  match p with
  | Fulfills v =>
      [PromiseSettled (inr v);
       LogCall Info [Val (VStr "Queued");
                     Val (VStr ("Webhook event for " +:+ urlText));
                     delivery_of request];
       StatusCall 200; EndCall None]
  | Rejects r => [PromiseSettled (inl r); NextCall (Rejected r)]
  | Pending => []
  end.

(** [eventsUrl] is what line 40 of the source computes from [event]:
    [repository] is [event.repository], and the URL is read from it when
    it is truthy, from [event.organization] otherwise. *)
Definition reads_events_url (event repository eventsUrl : value) : Prop :=
  Get event "repository" = inr repository /\
  if ToBoolean repository then Get repository "events_url" = inr eventsUrl
  else exists organization,
         Get event "organization" = inr organization
         /\ Get organization "events_url" = inr eventsUrl.

(** The events URL as the specification words it: [repository.events_url]
    when the parsed body has a [repository] key, [organization.events_url]
    otherwise. *)
Definition claimed_events_url (event : value) : exn number + value :=
  if has_key event "repository" then
    match Get event "repository" with
    | inr repository => Get repository "events_url"
    | inl e => inl e
    end
  else
    match Get event "organization" with
    | inr organization => Get organization "events_url"
    | inl e => inl e
    end.

(** The response of a run that only called [response.status(200).end()]. *)
Definition ok_response : Response :=
  {| statusCode := 200; response_headers := ∅; sent := None; finished := true |}.

End Pieces.

(** ** Concrete requests *)

Module Examples.

Definition with_header (name : string) (v : option string)
    (m : gmap string string) : gmap string string :=
  match v with
  | Some s => <[name := s]> m
  | None => m
  end.

Definition request_with (delivery signature eventType : option string)
    (text : string) : IncomingMessage :=
  {| headers := with_header "x-github-delivery" delivery
                  (with_header "x-hub-signature" signature
                     (with_header "x-github-event" eventType ∅));
     body := text |}.

Definition secret : string := "secret".
Definition now : string := "2018-06-01T12:00:00.000Z".

Definition service (name : string) (p : @promise JSON.decimal)
  : @Service JSON.decimal :=
  {| provider := VStr name; queue := fun _ _ => p |}.

Definition public_push : string :=
  JSON.text "{'ref':'refs/heads/master','repository':{'id':1,'private':false,'events_url':'https://api.github.com/repos/o/r/events'}}".

Definition private_push : string :=
  JSON.text "{'ref':'refs/heads/master','repository':{'id':2,'private':true,'events_url':'https://api.github.com/repos/o/s/events'}}".

Definition organization_event : string :=
  JSON.text "{'action':'member_added','organization':{'login':'o','events_url':'https://api.github.com/orgs/o/events'}}".

Definition null_repository : string :=
  JSON.text "{'repository':null,'organization':{'events_url':'https://api.github.com/orgs/o/events'}}".

Definition no_owner : string := JSON.text "{'zen':'Keep it logically awesome.'}".

(** A signature of the right length that is not the computed one. *)
Definition forged : string := "sha1=0000000000000000000000000000000000000000".

(** The value a text parses to ([null] when it does not parse), and a
    member of it ([undefined] when it cannot be read). *)
Definition parsed (text : string) : value JSON.decimal :=
  default VNull (JSON.parse text).

Definition field (v : value JSON.decimal) (name : string)
  : value JSON.decimal :=
  match Get v name with
  | inr x => x
  | inl _ => VUndefined
  end.

Definition run (name : string) (p : @promise JSON.decimal)
    (request : IncomingMessage) : list (@event JSON.decimal) :=
  setup (service name p) secret now request.

End Examples.

(** ** Texts *)

Definition is_lower_hex (c : ascii) : bool :=
  let n := byte_of_ascii c in
  ((48 <=? n) && (n <=? 57) || (97 <=? n) && (n <=? 102))%Z.

Fixpoint all_chars (p : ascii -> bool) (s : string) : bool :=
  match s with
  | EmptyString => true
  | String c rest => p c && all_chars p rest
  end.

Section Reading.
Context {number : Type}.

(** The calls of [response.end], in order. *)
Fixpoint end_calls (tr : list (@event number)) : list (option string) :=
  match tr with
  | [] => []
  | EndCall chunk :: rest => chunk :: end_calls rest
  | _ :: rest => end_calls rest
  end.

(** The [delivery] member of the object that closes a log call. *)
Definition delivery_tag (args : list (any number)) : option (value number) :=
  match last args with
  | Some (Val (VObj members)) => lookup_member "delivery" members
  | _ => None
  end.

(** Every log call of the run, whatever its level. *)
Fixpoint log_calls (tr : list (@event number)) : list (list (any number)) :=
  match tr with
  | [] => []
  | LogCall _ args :: rest => args :: log_calls rest
  | _ :: rest => log_calls rest
  end.

(** The log line of the mismatch, when line 35 finds one. *)
Definition mismatch_lines (request : IncomingMessage)
    (secret signature eventType : string) : list (@event number) :=
  if equal_bytes (Buffer signature)
       (Buffer (computedSignature secret (body request)))
  then []
  else [mismatch_line request signature
          (computedSignature secret (body request)) eventType].

(** The four responses a run can leave: untouched, 200, 400 with the
    JSON text of the message, 500 without body. *)
Definition bad_request_response : Response :=
  {| statusCode := 400;
     response_headers := {["content-type" := "text/plain"]};
     sent := Some (Quote "Missing signature or event type on GitHub webhook");
     finished := true |}.

Definition not_enabled_response : Response :=
  {| statusCode := 500;
     response_headers := {["content-type" := "text/plain"]};
     sent := None; finished := true |}.

End Reading.

(** ** More concrete bodies *)

Module Cases.

(** A repository whose [private] member is the number 1. *)
Definition numeric_private : string :=
  JSON.text "{'repository':{'private':1,'events_url':'https://api.github.com/repos/o/t/events'}}".

(** A repository without any member. *)
Definition bare_repository : string := JSON.text "{'repository':{}}".

End Cases.

(** * Properties *)

(** ** The hash against published test vectors *)

Example sha1_abc :
  hex_of_bytes (SHA1.hash (bytes_of_string "abc"))
  = "a9993e364706816aba3e25717850c26c9cd0d89d".
Proof. vm_compute. reflexivity. Qed.

Example sha1_two_blocks :
  hex_of_bytes (SHA1.hash (bytes_of_string
    "abcdbcdecdefdefgefghfghighijhijkijkljklmklmnlmnomnopnopq"))
  = "84983e441c3bd26ebaae4aa1f95129e5e54670f1".
Proof. vm_compute. reflexivity. Qed.

Example sha1_digest_abc :
  hex_of_bytes (SHA1.digest (bytes_of_string "abc"))
  = "a9993e364706816aba3e25717850c26c9cd0d89d".
Proof. vm_compute. reflexivity. Qed.

Example hmac_rfc2202_case1 :
  hex_of_bytes (HMAC_SHA1 (repeat 11%Z 20) (bytes_of_string "Hi There"))
  = "b617318655057264e28bc0b6fb378c8ef146be00".
Proof. vm_compute. reflexivity. Qed.

Example hmac_rfc2202_case6 :
  hex_of_bytes (HMAC_SHA1 (repeat 170%Z 80)
                  (bytes_of_string
                     "Test Using Larger Than Block-Size Key - Hash Key First"))
  = "aa4ae5e15272d00e95705637ce8a3b55ed402112".
Proof. vm_compute. reflexivity. Qed.

Example hmac_rfc2202_case2 :
  hex_of_bytes (HMAC_SHA1 (bytes_of_string "Jefe")
                  (bytes_of_string "what do ya want for nothing?"))
  = "effcdf6ae5eb2fa2d27416d5f184df9c259a7c79".
Proof. vm_compute. reflexivity. Qed.

(** ** Bytes and digests *)

Lemma byte_of_ascii_inj (a b : ascii) : byte_of_ascii a = byte_of_ascii b -> a = b.
Proof.
  unfold byte_of_ascii. intros E. apply N2Z.inj in E.
  rewrite <- (ascii_N_embedding a), <- (ascii_N_embedding b). now rewrite E.
Qed.

Lemma bytes_of_string_inj (s t : string) :
  bytes_of_string s = bytes_of_string t -> s = t.
Proof.
  revert t. induction s as [|c s IH]; intros [|d t]; simpl; try discriminate.
  - reflexivity.
  - intros E. injection E as Ec Es. f_equal; [now apply byte_of_ascii_inj | now apply IH].
Qed.

Lemma bytes_of_string_length (s : string) :
  length (bytes_of_string s) = String.length s.
Proof. induction s as [|c s IH]; simpl; [reflexivity | now rewrite IH]. Qed.

Lemma equal_bytes_eq (a b : list Z) : equal_bytes a b = true <-> a = b.
Proof.
  revert b. induction a as [|x a IH]; intros [|y b]; simpl; split;
    try discriminate; try reflexivity.
  - intros E. apply andb_true_iff in E as [Exy Eab].
    apply Z.eqb_eq in Exy. apply IH in Eab. now subst.
  - intros E. injection E as -> ->. rewrite Z.eqb_refl. now apply IH.
Qed.

Lemma equal_bytes_differ (s t : string) :
  s <> t -> equal_bytes (Buffer s) (Buffer t) = false.
Proof.
  intros Hne. destruct (equal_bytes (Buffer s) (Buffer t)) eqn:E; [|reflexivity].
  apply equal_bytes_eq, bytes_of_string_inj in E. contradiction.
Qed.

Lemma hex_of_bytes_length (bs : list Z) :
  String.length (hex_of_bytes bs) = 2 * length bs.
Proof. induction bs as [|b bs IH]; simpl; [reflexivity | rewrite IH; lia]. Qed.

Lemma big_endian_length (n : nat) (x : Z) : length (big_endian n x) = n.
Proof. induction n as [|n IH]; simpl; [reflexivity | now rewrite IH]. Qed.

Lemma sha1_final_length (st : SHA1.state) : length (SHA1.final st) = 20.
Proof.
  unfold SHA1.final. rewrite !length_app, !big_endian_length. reflexivity.
Qed.

Lemma sha1_update_app (st : SHA1.state) (a b : list Z) :
  SHA1.update st (a ++ b) = SHA1.update (SHA1.update st a) b.
Proof. unfold SHA1.update. apply fold_left_app. Qed.

(** *** The streamed hash is the hash of the standard *)

Lemma blocks_app (q : nat) (a b : list Z) :
  length a = 64 * q -> forall r,
  SHA1.blocks (q + r) (a ++ b) = SHA1.blocks q a ++ SHA1.blocks r b.
Proof.
  revert a. induction q as [|q IH]; intros a Ha r.
  - destruct a; [reflexivity | discriminate].
  - cbn [Nat.add SHA1.blocks].
    assert (H64 : 64 <= length a) by lia.
    rewrite firstn_app, skipn_app.
    replace (64 - length a) with 0 by lia.
    cbn [firstn skipn]. rewrite app_nil_r.
    rewrite IH by (rewrite length_skipn; lia). reflexivity.
Qed.

Lemma update_cons (st : SHA1.state) (b : Z) (bs : list Z) :
  SHA1.update st (b :: bs) = SHA1.update (SHA1.absorb st b) bs.
Proof. reflexivity. Qed.

Lemma blocks_one (bs : list Z) : SHA1.blocks 1 bs = [firstn 64 bs].
Proof. reflexivity. Qed.

Lemma fold_left_one {A B : Type} (f : A -> B -> A) (a : A) (b : B) :
  fold_left f [b] a = f a b.
Proof. reflexivity. Qed.

(** What a state holds once more bytes are absorbed: with [all] the
    pending bytes followed by the new ones, the full blocks of [all]
    have been compressed and the rest is pending. *)
Lemma update_blocks (bs : list Z) : forall st : SHA1.state,
  SHA1.npending st = length (SHA1.pending st) ->
  length (SHA1.pending st) < 64 ->
  let all := rev (SHA1.pending st) ++ bs in
  let q := length all / 64 in
  SHA1.update st bs
  = SHA1.State
      (fold_left SHA1.compress (SHA1.blocks q all) (SHA1.chaining st))
      (rev (skipn (64 * q) all))
      (length all mod 64)
      (SHA1.total st + Z.of_nat (length bs)).
Proof.
  induction bs as [|b bs IH]; intros st Hn Hlt all q; subst all q.
  - rewrite app_nil_r, length_rev.
    rewrite Nat.div_small, Nat.mod_small by exact Hlt.
    rewrite Nat.mul_0_r.
    cbn [SHA1.update fold_left SHA1.blocks skipn length Z.of_nat].
    rewrite skipn_O, rev_involutive, <- Hn. cbn [Z.of_nat].
    rewrite Z.add_0_r. now destruct st.
  - rewrite update_cons. unfold SHA1.absorb.
    destruct (Nat.eqb (S (SHA1.npending st)) 64) eqn:E.
    + apply Nat.eqb_eq in E.
      assert (Hfull : length (rev (b :: SHA1.pending st)) = 64 * 1).
      { rewrite length_rev. cbn [length]. lia. }
      assert (Hall : rev (SHA1.pending st) ++ b :: bs
                     = rev (b :: SHA1.pending st) ++ bs).
      { cbn [rev]. now rewrite <- app_assoc. }
      assert (Hlen : Z.of_nat (length (b :: bs)) = (1 + Z.of_nat (length bs))%Z).
      { cbn [length]. lia. }
      rewrite Hall, Hlen, length_app, Hfull.
      replace (64 * 1 + length bs) with (length bs + 1 * 64) by lia.
      rewrite Nat.div_add, Nat.Div0.mod_add by lia.
      replace (length bs / 64 + 1) with (1 + length bs / 64) by lia.
      rewrite (blocks_app 1 _ bs Hfull), fold_left_app.
      rewrite blocks_one, fold_left_one, firstn_all2 by lia.
      replace (64 * (1 + length bs / 64)) with (64 * (length bs / 64) + 64)
        by lia.
      rewrite <- skipn_skipn, (skipn_app 64).
      rewrite (skipn_all2 (n := 64) (rev (b :: SHA1.pending st))) by lia.
      replace (64 - length (rev (b :: SHA1.pending st))) with 0 by lia.
      rewrite skipn_O, app_nil_l.
      generalize (SHA1.compress (SHA1.chaining st)
                    (rev (b :: SHA1.pending st))).
      intros c.
      rewrite (IH (SHA1.State c [] 0 (SHA1.total st + 1)) eq_refl)
        by (cbn [SHA1.pending length]; lia).
      cbn [SHA1.pending SHA1.chaining SHA1.total rev app].
      f_equal. lia.
    + apply Nat.eqb_neq in E.
      rewrite IH by (cbn; lia).
      cbn [SHA1.pending SHA1.chaining SHA1.total rev length].
      rewrite <- app_assoc. cbn [app]. f_equal. lia.
Qed.

Lemma padding_length (len : Z) :
  length (SHA1.padding len) = 9 + Z.to_nat ((55 - len) mod 64).
Proof.
  unfold SHA1.padding. cbn [length].
  rewrite length_app, repeat_length. cbn [big_endian length]. lia.
Qed.

(** A padded message is a whole number of blocks. *)
Lemma padded_length (msg : list Z) :
  length (msg ++ SHA1.padding (Z.of_nat (length msg))) mod 64 = 0.
Proof.
  rewrite length_app, padding_length.
  set (n := length msg).
  pose proof (Z.mod_pos_bound (55 - Z.of_nat n) 64 ltac:(lia)) as Hb.
  pose proof (Z.div_mod (55 - Z.of_nat n) 64 ltac:(lia)) as Hd.
  set (r := ((55 - Z.of_nat n) mod 64)%Z) in *.
  set (d := ((55 - Z.of_nat n) / 64)%Z) in *.
  assert (E : n + (9 + Z.to_nat r) = Z.to_nat (1 - d) * 64) by lia.
  rewrite E. apply Nat.Div0.mod_mul.
Qed.

(** The hash of a streamed message is the hash FIPS 180-4 defines. *)
Lemma sha1_hash_digest (msg : list Z) : SHA1.hash msg = SHA1.digest msg.
Proof.
  unfold SHA1.hash, SHA1.digest, SHA1.final.
  pose proof (update_blocks msg SHA1.init eq_refl) as Hu.
  cbn [SHA1.init SHA1.pending SHA1.chaining SHA1.total rev app length] in Hu.
  specialize (Hu ltac:(lia)). cbv zeta in Hu. rewrite Hu. clear Hu.
  cbn [SHA1.total].
  set (q := length msg / 64).
  rewrite Z.add_0_l.
  assert (Hrest : length (skipn (64 * q) msg) = length msg mod 64).
  { rewrite length_skipn. subst q.
    pose proof (Nat.div_mod_eq (length msg) 64). lia. }
  rewrite update_blocks; cbn [SHA1.pending SHA1.npending SHA1.chaining].
  2:{ now rewrite length_rev. }
  2:{ rewrite length_rev, Hrest. apply Nat.mod_upper_bound. lia. }
  cbn [SHA1.chaining]. rewrite rev_involutive.
  rewrite <- fold_left_app.
  assert (Hsplit : msg = firstn (64 * q) msg ++ skipn (64 * q) msg)
    by (symmetry; apply firstn_skipn).
  assert (Hfirst : length (firstn (64 * q) msg) = 64 * q).
  { rewrite length_firstn. subst q.
    pose proof (Nat.div_mod_eq (length msg) 64). lia. }
  set (tail := skipn (64 * q) msg ++ SHA1.padding (Z.of_nat (length msg))).
  assert (Hpadded : msg ++ SHA1.padding (Z.of_nat (length msg))
                    = firstn (64 * q) msg ++ tail).
  { subst tail. rewrite app_assoc. now rewrite <- Hsplit. }
  assert (Hblocks : SHA1.blocks q msg = SHA1.blocks q (firstn (64 * q) msg)).
  { rewrite Hsplit at 1.
    rewrite <- (Nat.add_0_r q) at 1.
    rewrite (blocks_app q _ _ Hfirst 0). cbn [SHA1.blocks]. apply app_nil_r. }
  rewrite Hblocks, <- (blocks_app q _ tail Hfirst).
  rewrite Hpadded. rewrite (length_app (firstn _ _)), Hfirst.
  replace (64 * q + length tail) with (q * 64 + length tail) by lia.
  rewrite Nat.div_add_l by lia. reflexivity.
Qed.

(** What [createHmac], [update] and [digest] compute together, over a
    hash that is fed piece by piece, is the HMAC of RFC 2104. *)
Lemma hmac_object_digest (key data : string) :
  Hmac_digest_hex (Hmac_update (createHmac sha1 key) data)
  = hex_of_bytes (HMAC_SHA1 (bytes_of_string key) (bytes_of_string data)).
Proof.
  unfold Hmac_digest_hex, Hmac_update, createHmac.
  cbn [inner outer_key]. f_equal.
  rewrite <- sha1_update_app.
  change (SHA1.final (SHA1.update SHA1.init ?m)) with (SHA1.hash m).
  rewrite !sha1_hash_digest.
  unfold HMAC_SHA1, xor_pad, hmac_key, block_size.
  now rewrite sha1_hash_digest.
Qed.

Lemma append_length (s t : string) :
  String.length (s +:+ t) = String.length s + String.length t.
Proof. induction s as [|c s IH]; simpl; [reflexivity | now rewrite IH]. Qed.

(** X4. The computed signature is [sha1=] and forty hexadecimal digits:
    45 bytes. *)
Lemma computedSignature_length (secret data : string) :
  String.length (computedSignature secret data) = 45.
Proof.
  unfold computedSignature, Hmac_digest_hex.
  rewrite append_length, hex_of_bytes_length.
  unfold SHA1.hash. now rewrite sha1_final_length.
Qed.

Lemma computedSignature_not_empty (secret data : string) :
  String.eqb (computedSignature secret data) "" = false.
Proof. reflexivity. Qed.

(** ** Runs of the handler *)

Section Runs.
Context {number : Type} `{Engine number}.

Local Notation value := (value number) (only parsing).
Local Notation event := (@event number) (only parsing).
Local Notation promise := (@promise number) (only parsing).
Local Notation Request := (@Request number) (only parsing).
Local Notation Service := (@Service number) (only parsing).

Lemma truthy_readable (v : value) (name : string) :
  ToBoolean v = true -> exists p, Get v name = inr p.
Proof. destruct v; simpl; try discriminate; eauto. Qed.

Lemma truthy_header_present (request : IncomingMessage) (name s : string) :
  truthy_header request name = Some s ->
  headers request !! name = Some s /\ s <> "".
Proof.
  unfold truthy_header. destruct (headers request !! name) as [t|]; [|discriminate].
  destruct (String.eqb t "") eqn:E; [discriminate|].
  intros [= ->]. split; [reflexivity | now apply String.eqb_neq].
Qed.

Lemma present_header_truthy (request : IncomingMessage) (name s : string) :
  headers request !! name = Some s -> String.eqb s "" = false ->
  truthy_header request name = Some s.
Proof. unfold truthy_header. now intros -> ->. Qed.

Lemma missing_header_falsy (request : IncomingMessage) (name : string) :
  headers request !! name = None -> truthy_header request name = None.
Proof. unfold truthy_header. now intros ->. Qed.

Lemma enabled_provider (service : Service) :
  strict_eq_string (provider service) "webhook" = true <->
  provider service = VStr "webhook".
Proof.
  unfold strict_eq_string. destruct (provider service); split; try discriminate.
  - intros E. apply String.eqb_eq in E. now subst.
  - intros [= ->]. reflexivity.
Qed.

(** The conversion of a value to a string fails in one way only. *)
Lemma ToString_throws (v : value) (e : exn number) :
  ToString v = inl e -> exists object, e = TypeError_primitive object.
Proof.
  revert v e. fix IH 1. intros v e.
  destruct v as [| |[|]|n|s|items|members]; cbn [ToString]; try discriminate.
  - revert e. induction items as [|x items IHitems]; intros e; [discriminate|].
    pose proof (IH x) as IHx.
    match goal with
    | |- match ?h with _ => _ end = _ -> _ => remember h as head eqn:Ehead
    end.
    assert (Hhead : forall r, head = inl r ->
                      exists object, r = TypeError_primitive object).
    { intros r. subst head. destruct x; try discriminate; apply IHx. }
    clear IHx Ehead.
    destruct head as [r|sx].
    + intros [= <-]. now apply Hhead.
    + destruct items as [|y items]; [discriminate|].
      match goal with
      | |- match ?j with _ => _ end = _ -> _ => destruct j as [r|sr] eqn:Er
      end.
      * intros [= <-]. now apply IHitems.
      * discriminate.
  - destruct (lookup_member "toString" members); [|discriminate].
    intros [= <-]. eauto.
Qed.

(** The delivery id, a string or [undefined], always has a text. *)
Lemma delivery_converts (request : IncomingMessage) :
  ToString (header request "x-github-delivery")
  = inr (delivery_text request).
Proof.
  unfold header, delivery_text.
  now destruct (headers request !! "x-github-delivery").
Qed.

Ltac to_parsed Hp Hs He Hi Hlen Hj :=
  unfold setup, post; rewrite Hp, Hs, He;
  cbn -[includes computedSignature Buffer timingSafeEqual ToString header];
  rewrite Hi; unfold timingSafeEqual; rewrite Hlen, Nat.eqb_refl;
  cbn -[includes computedSignature Buffer equal_bytes ToString header];
  unfold received_line;
  destruct (equal_bytes _ _);
  cbn -[includes computedSignature Buffer ToString header];
  rewrite Hj;
  cbn -[includes computedSignature Buffer ToString header].

(** The whole trace of a run that passes every check before the queue. *)
Lemma run_to_queue (service : Service) (secret now : string)
    (request : IncomingMessage) (signature eventType : string)
    (event repository eventsUrl : value) (urlText : string) :
  provider service = VStr "webhook" ->
  truthy_header request "x-hub-signature" = Some signature ->
  truthy_header request "x-github-event" = Some eventType ->
  includes ignored_events eventType = false ->
  length (Buffer signature)
    = length (Buffer (computedSignature secret (body request))) ->
  JSON_parse (body request) = Some event ->
  reads_events_url event repository eventsUrl ->
  ToString eventsUrl = inr urlText ->
  let item := result_at_queue now request eventType event urlText
                (private_flag repository) in
  setup service secret now request
  = received_line request
      :: (if equal_bytes (Buffer signature)
               (Buffer (computedSignature secret (body request)))
          then []
          else [mismatch_line request signature
                  (computedSignature secret (body request)) eventType])
      ++ QueueCall item "events"
      :: after_queue request urlText (queue service item "events").
Proof.
  intros Hp Hs He Hi Hlen Hj [Hr Hu] Hts item. subst item.
  to_parsed Hp Hs He Hi Hlen Hj.
  all: rewrite Hr; cbn -[ToString header].
  all: unfold private_flag.
  all: destruct (ToBoolean repository) eqn:Ht; cbn -[ToString header].
  all: try (destruct (truthy_readable repository "private" Ht) as [p Hpv]).
  all: try rewrite Hu;
       try (destruct Hu as (o & Ho & Hu); rewrite Ho; cbn -[ToString header];
            rewrite Hu);
       cbn -[ToString header].
  all: rewrite Hts; cbn -[ToString header].
  all: rewrite delivery_converts; cbn -[ToString header].
  all: try rewrite Hpv; cbn -[ToString header].
  all: try (destruct (ToBoolean p)); cbn -[ToString header].
  all: unfold result_at_queue, after_queue, new_Request, mismatch_line;
       cbn -[ToString header].
  all: destruct (queue service _ "events"); cbn -[ToString header];
       rewrite ?Hts; reflexivity.
Qed.

(** The whole trace of a run that throws between the parsing of the body
    and the call of the queue. *)
Lemma run_to_throw (service : Service) (secret now : string)
    (request : IncomingMessage) (signature eventType : string)
    (event : value) (e : exn number) :
  provider service = VStr "webhook" ->
  truthy_header request "x-hub-signature" = Some signature ->
  truthy_header request "x-github-event" = Some eventType ->
  includes ignored_events eventType = false ->
  length (Buffer signature)
    = length (Buffer (computedSignature secret (body request))) ->
  JSON_parse (body request) = Some event ->
  (Get event "repository" = inl e
   \/ exists repository,
        Get event "repository" = inr repository
        /\ ((ToBoolean repository = false
             /\ (Get event "organization" = inl e
                 \/ exists organization,
                      Get event "organization" = inr organization
                      /\ Get organization "events_url" = inl e))
            \/ exists eventsUrl,
                 reads_events_url event repository eventsUrl
                 /\ ToString eventsUrl = inl e)) ->
  setup service secret now request
  = received_line request
      :: (if equal_bytes (Buffer signature)
               (Buffer (computedSignature secret (body request)))
          then []
          else [mismatch_line request signature
                  (computedSignature secret (body request)) eventType])
      ++ [NextCall e].
Proof.
  intros Hp Hs He Hi Hlen Hj Hcase.
  to_parsed Hp Hs He Hi Hlen Hj.
  all: destruct Hcase
         as [Hr | (repository & Hr &
                   [ (Ht & [Ho | (organization & Ho & Hu)])
                   | (eventsUrl & [Hr' Hu] & Hts) ])];
       rewrite Hr; cbn -[ToString header]; try reflexivity.
  all: try (rewrite Ht; cbn -[ToString header]; rewrite Ho;
            cbn -[ToString header]; try reflexivity;
            rewrite Hu; reflexivity).
  all: destruct (ToBoolean repository) eqn:Ht; cbn -[ToString header].
  all: try rewrite Hu;
       try (destruct Hu as (o & Ho & Hu); rewrite Ho; cbn -[ToString header];
            rewrite Hu);
       cbn -[ToString header].
  all: rewrite Hts; reflexivity.
Qed.

Ltac no_queue_call Hin :=
  cbn in Hin;
  repeat (destruct Hin as [Hin | Hin]; [discriminate Hin|]);
  contradiction.

(** A run calls [queue] only after every check has passed. *)
Lemma queue_call_inversion (service : Service) (secret now : string)
    (request : IncomingMessage) (item : Request) (name : string) :
  In (QueueCall item name) (setup service secret now request) ->
  exists signature eventType event repository eventsUrl urlText,
    provider service = VStr "webhook"
    /\ truthy_header request "x-hub-signature" = Some signature
    /\ truthy_header request "x-github-event" = Some eventType
    /\ includes ignored_events eventType = false
    /\ length (Buffer signature)
       = length (Buffer (computedSignature secret (body request)))
    /\ JSON_parse (body request) = Some event
    /\ reads_events_url event repository eventsUrl
    /\ ToString eventsUrl = inr urlText
    /\ name = "events"
    /\ item = result_at_queue now request eventType event urlText
                (private_flag repository).
Proof.
  intros Hin.
  destruct (strict_eq_string (provider service) "webhook") eqn:Hp;
    [| unfold setup, post in Hin; rewrite Hp in Hin; no_queue_call Hin].
  apply enabled_provider in Hp.
  destruct (truthy_header request "x-hub-signature") as [signature|] eqn:Hs;
    [| unfold setup, post in Hin; rewrite Hp, Hs in Hin; no_queue_call Hin].
  destruct (truthy_header request "x-github-event") as [eventType|] eqn:He;
    [| unfold setup, post in Hin; rewrite Hp, Hs, He in Hin; no_queue_call Hin].
  destruct (includes ignored_events eventType) eqn:Hi.
  { unfold setup, post in Hin. rewrite Hp, Hs, He in Hin.
    cbn -[includes] in Hin. rewrite Hi in Hin. no_queue_call Hin. }
  destruct (Nat.eqb (length (Buffer signature))
              (length (Buffer (computedSignature secret (body request))))) eqn:Hlen.
  2:{ unfold setup, post in Hin. rewrite Hp, Hs, He in Hin.
      cbn -[includes computedSignature Buffer timingSafeEqual] in Hin.
      rewrite Hi in Hin. unfold timingSafeEqual in Hin. rewrite Hlen in Hin.
      no_queue_call Hin. }
  apply Nat.eqb_eq in Hlen.
  assert (Hpre : forall rest,
    In (QueueCall item name)
       (received_line request
          :: (if equal_bytes (Buffer signature)
                   (Buffer (computedSignature secret (body request)))
              then []
              else [mismatch_line request signature
                      (computedSignature secret (body request)) eventType])
          ++ rest) -> In (QueueCall item name) rest).
  { intros rest [E | Hr]; [discriminate E|].
    destruct (equal_bytes _ _); [exact Hr|].
    destruct Hr as [E | Hr]; [discriminate E | exact Hr]. }
  destruct (JSON_parse (body request)) as [event|] eqn:Hj.
  2:{ unfold setup, post in Hin. rewrite Hp, Hs, He in Hin.
      cbn -[includes computedSignature Buffer timingSafeEqual] in Hin.
      rewrite Hi in Hin. unfold timingSafeEqual in Hin.
      rewrite Hlen, Nat.eqb_refl in Hin.
      cbn -[includes computedSignature Buffer equal_bytes] in Hin.
      destruct (equal_bytes _ _); simpl in Hin; rewrite Hj in Hin;
        no_queue_call Hin. }
  assert (Hcases :
    (exists repository eventsUrl urlText,
       reads_events_url event repository eventsUrl
       /\ ToString eventsUrl = inr urlText)
    \/ exists e, setup service secret now request
         = received_line request
             :: (if equal_bytes (Buffer signature)
                      (Buffer (computedSignature secret (body request)))
                 then []
                 else [mismatch_line request signature
                         (computedSignature secret (body request)) eventType])
             ++ [NextCall e]).
  { assert (Hconv : forall repository eventsUrl,
              reads_events_url event repository eventsUrl ->
              (exists repository eventsUrl urlText,
                 reads_events_url event repository eventsUrl
                 /\ ToString eventsUrl = inr urlText)
              \/ exists e, setup service secret now request
                   = received_line request
                       :: (if equal_bytes (Buffer signature)
                                (Buffer (computedSignature secret (body request)))
                           then []
                           else [mismatch_line request signature
                                   (computedSignature secret (body request))
                                   eventType])
                       ++ [NextCall e]).
    { intros repository eventsUrl Hread.
      case_eq (ToString eventsUrl); [intros e Hts | intros urlText Hts].
      - right. exists e.
        apply (run_to_throw service secret now request signature eventType
                 event e Hp Hs He Hi Hlen Hj).
        right. exists repository. split; [apply Hread|].
        right. exists eventsUrl. now split.
      - left. exists repository, eventsUrl, urlText. now split. }
    case_eq (Get event "repository"); [intros e Hr | intros repository Hr].
    { right. exists e.
      apply (run_to_throw service secret now request signature eventType
               event e Hp Hs He Hi Hlen Hj). now left. }
    destruct (ToBoolean repository) eqn:Ht.
    { destruct (truthy_readable repository "events_url" Ht) as [u Hu].
      apply (Hconv repository u). split; [exact Hr|]. now rewrite Ht. }
    case_eq (Get event "organization"); [intros e Ho | intros organization Ho].
    { right. exists e.
      apply (run_to_throw service secret now request signature eventType
               event e Hp Hs He Hi Hlen Hj).
      right. exists repository. split; [exact Hr|]. left. split; [exact Ht|].
      now left. }
    case_eq (Get organization "events_url"); [intros e Hu | intros u Hu].
    { right. exists e.
      apply (run_to_throw service secret now request signature eventType
               event e Hp Hs He Hi Hlen Hj).
      right. exists repository. split; [exact Hr|]. left. split; [exact Ht|].
      right. exists organization. now split. }
    apply (Hconv repository u). split; [exact Hr|]. rewrite Ht.
    exists organization. now split. }
  destruct Hcases as [(repository & eventsUrl & urlText & Hread & Hts) | (e & Htr)].
  - exists signature, eventType, event, repository, eventsUrl, urlText.
    repeat (split; [assumption|]).
    rewrite (run_to_queue service secret now request signature eventType
               event repository eventsUrl urlText
               Hp Hs He Hi Hlen Hj Hread Hts) in Hin.
    apply Hpre in Hin. destruct Hin as [E | Hin].
    + injection E as <- <-. now split.
    + exfalso. destruct (queue service _ "events"); no_queue_call Hin.
  - rewrite Htr in Hin. apply Hpre in Hin. no_queue_call Hin.
Qed.

Ltac through_checks Hp Hs He Hi :=
  unfold setup, post; rewrite Hp, Hs, He;
  cbn -[includes computedSignature Buffer timingSafeEqual]; rewrite Hi.

Lemma absent_key (name : string) (members : list (string * value)) :
  has_key (VObj members) name = false -> lookup_member name members = None.
Proof.
  unfold has_key. intros Hk.
  destruct (lookup_member name members); [|reflexivity].
  apply bool_decide_eq_false in Hk. exfalso. apply Hk. eauto.
Qed.

(** *** Requests turned away *)

(** C5. With the provider configured as [webhook], a request that lacks
    the [x-hub-signature] header or the [x-github-event] header is
    answered 400, whatever its body; the response is the JSON text of
    the message, and nothing is enqueued. *)
Theorem missing_header_is_rejected (service : Service) (secret now : string)
    (request : IncomingMessage) :
  provider service = VStr "webhook" ->
  headers request !! "x-hub-signature" = None
    \/ headers request !! "x-github-event" = None ->
  let tr := setup service secret now request in
  response_after tr
    = {| statusCode := 400;
         response_headers := {["content-type" := "text/plain"]};
         sent := Some (Quote "Missing signature or event type on GitHub webhook");
         finished := true |}
  /\ enqueued tr = [].
Proof.
  intros Hp Hmiss tr. subst tr.
  assert (Hnone : truthy_header request "x-hub-signature" = None
                  \/ truthy_header request "x-github-event" = None).
  { destruct Hmiss as [Hm | Hm]; [left | right];
      now apply missing_header_falsy. }
  unfold setup, post. rewrite Hp.
  destruct Hnone as [Hn | Hn]; rewrite Hn.
  - split; reflexivity.
  - destruct (truthy_header request "x-hub-signature"); split; reflexivity.
Qed.

(** C3, as amended. With the provider configured as [webhook] and an
    [x-hub-signature] header present (and not empty), a request whose
    [x-github-event] header is [check_run] or [check_suite] is answered
    200 and nothing is enqueued, whatever the signature says. *)
Theorem ignored_event_is_acknowledged (service : Service) (secret now : string)
    (request : IncomingMessage) (signature eventType : string) :
  provider service = VStr "webhook" ->
  truthy_header request "x-hub-signature" = Some signature ->
  headers request !! "x-github-event" = Some eventType ->
  eventType = "check_run" \/ eventType = "check_suite" ->
  let tr := setup service secret now request in
  response_after tr = ok_response /\ enqueued tr = [] /\ failure tr = None.
Proof.
  intros Hp Hs He Hev tr. subst tr.
  assert (Ht : truthy_header request "x-github-event" = Some eventType).
  { apply present_header_truthy; [exact He|]. now destruct Hev as [-> | ->]. }
  assert (Hi : includes ignored_events eventType = true).
  { now destruct Hev as [-> | ->]. }
  through_checks Hp Hs Ht Hi. repeat split.
Qed.

(** *** Exceptions *)

(** C9. A request that reaches the signature comparison with an
    [x-hub-signature] whose byte length differs from that of the computed
    signature ends in the exception of [timingSafeEqual]: nothing is
    enqueued and the response is not touched. *)
Theorem wrong_length_signature_throws (service : Service) (secret now : string)
    (request : IncomingMessage) (signature eventType : string) :
  provider service = VStr "webhook" ->
  truthy_header request "x-hub-signature" = Some signature ->
  truthy_header request "x-github-event" = Some eventType ->
  includes ignored_events eventType = false ->
  length (Buffer signature)
    <> length (Buffer (computedSignature secret (body request))) ->
  let tr := setup service secret now request in
  failure tr = Some RangeError_length
  /\ enqueued tr = []
  /\ response_calls tr = []
  /\ response_after tr = fresh_response.
Proof.
  intros Hp Hs He Hi Hlen tr. subst tr.
  apply Nat.eqb_neq in Hlen.
  through_checks Hp Hs He Hi. unfold timingSafeEqual. rewrite Hlen.
  repeat split.
Qed.

(** C10, as amended. A request that passes the provider, header and
    ignore-list checks and whose parsed body has neither a [repository]
    key nor an [organization] key ends in an exception: nothing is
    enqueued and the response is not touched. When the signature has
    the byte length of the computed one, the exception is the TypeError
    of reading [events_url] of [undefined], the missing organization,
    except for the body [null], where it is the TypeError of reading
    [repository] of [null]; with a signature of another length it is
    the RangeError of [timingSafeEqual]. *)
Theorem no_repository_no_organization_throws (service : Service)
    (secret now : string) (request : IncomingMessage)
    (signature eventType : string) (event : value) :
  provider service = VStr "webhook" ->
  truthy_header request "x-hub-signature" = Some signature ->
  truthy_header request "x-github-event" = Some eventType ->
  includes ignored_events eventType = false ->
  JSON_parse (body request) = Some event ->
  has_key event "repository" = false ->
  has_key event "organization" = false ->
  let tr := setup service secret now request in
  (exists e, failure tr = Some e)
  /\ enqueued tr = []
  /\ response_calls tr = []
  /\ (length (Buffer signature)
        = length (Buffer (computedSignature secret (body request))) ->
      failure tr
      = Some (match event with
              | VUndefined | VNull => TypeError_read "repository" event
              | _ => TypeError_read "events_url" VUndefined
              end))
  /\ (length (Buffer signature)
        <> length (Buffer (computedSignature secret (body request))) ->
      failure tr = Some RangeError_length).
Proof.
  intros Hp Hs He Hi Hj Hr Ho tr. subst tr.
  pose proof absent_key as Hmember.
  through_checks Hp Hs He Hi. unfold timingSafeEqual.
  destruct (Nat.eqb _ _) eqn:Hlen.
  - cbn -[includes computedSignature Buffer equal_bytes].
    destruct (equal_bytes _ _); simpl; rewrite Hj; simpl.
    all: destruct event as [| |b|n|s|items|members]; simpl.
    all: try (rewrite (Hmember _ _ Hr), (Hmember _ _ Ho); simpl).
    all: apply Nat.eqb_eq in Hlen.
    all: repeat split; eauto; intros E; contradiction.
  - apply Nat.eqb_neq in Hlen. repeat split; eauto.
    intros E. contradiction.
Qed.

(** *** Runs that reach the queue *)

Lemma enqueued_once (request : IncomingMessage) (middle : list event)
    (item : Request) (urlText : string) (p : promise) :
  enqueued middle = [] ->
  enqueued (received_line request
              :: middle ++ QueueCall item "events"
              :: after_queue request urlText p)
  = [(item, "events")].
Proof.
  intros Hm. cbn [received_line enqueued].
  assert (Happ : forall l1 l2 : list event,
            enqueued (l1 ++ l2) = enqueued l1 ++ enqueued l2).
  { induction l1 as [|[] l1 IH]; intros l2; simpl; rewrite ?IH; reflexivity. }
  rewrite Happ, Hm. simpl. now destruct p.
Qed.

Lemma mismatch_not_enqueued (request : IncomingMessage)
    (signature computed eventType : string) (same : bool) :
  @enqueued number
    (if same then []
     else [mismatch_line request signature computed eventType]) = [].
Proof. now destruct same. Qed.

(** What lines 36 to 38 do with a signature that has the byte length of
    the computed one without being equal to it: for a request that
    passes the provider and header checks, whose event type is not
    ignored and whose body parses to an event with an events URL that
    has a text, the run is the log line of the mismatch put before the
    call of [queue] and nothing else, and the response is 200 once the
    enqueue call is fulfilled. *)
Lemma equal_length_mismatch_is_only_logged (service : Service)
    (secret now : string) (request : IncomingMessage)
    (signature eventType : string)
    (event repository eventsUrl : value) (urlText : string) :
  provider service = VStr "webhook" ->
  truthy_header request "x-hub-signature" = Some signature ->
  truthy_header request "x-github-event" = Some eventType ->
  includes ignored_events eventType = false ->
  signature <> computedSignature secret (body request) ->
  length (Buffer signature)
    = length (Buffer (computedSignature secret (body request))) ->
  JSON_parse (body request) = Some event ->
  reads_events_url event repository eventsUrl ->
  ToString eventsUrl = inr urlText ->
  let tr := setup service secret now request in
  let item := result_at_queue now request eventType event urlText
                (private_flag repository) in
  tr = [received_line request;
        mismatch_line request signature
          (computedSignature secret (body request)) eventType;
        QueueCall item "events"]
       ++ after_queue request urlText (queue service item "events")
  /\ enqueued tr = [(item, "events")]
  /\ (forall v, queue service item "events" = Fulfills v ->
        response_after tr = ok_response /\ failure tr = None).
Proof.
  intros Hp Hs He Hi Hne Hlen Hj Hread Hts tr item. subst tr item.
  rewrite (run_to_queue service secret now request signature eventType
             event repository eventsUrl urlText
             Hp Hs He Hi Hlen Hj Hread Hts).
  rewrite (equal_bytes_differ _ _ Hne).
  split; [reflexivity | split].
  - apply enqueued_once. reflexivity.
  - intros v Hv. rewrite Hv. split; reflexivity.
Qed.

(** C2. The signature the handler computes for a secret and a body is
    [sha1=] followed by the lowercase hexadecimal HMAC-SHA1 of the body
    keyed by the secret. With the provider configured as [webhook], a
    request that carries that signature and a [push] event whose
    [repository] is an object with a falsy [private] and an
    [events_url] that has a text (any string has) is enqueued exactly
    once, with a work item whose [requiresLock] is false and whose
    context has no [repoType]. *)
Theorem correct_signature_public_push (service : Service) (secret now : string)
    (request : IncomingMessage) (event : value)
    (members : list (string * value)) (private eventsUrl : value)
    (urlText : string) :
  (forall S B : string,
     computedSignature S B
     = "sha1=" +:+ hex_of_bytes (HMAC_SHA1 (bytes_of_string S)
                                   (bytes_of_string B)))
  /\ (provider service = VStr "webhook" ->
      headers request !! "x-hub-signature"
        = Some (computedSignature secret (body request)) ->
      headers request !! "x-github-event" = Some "push" ->
      JSON_parse (body request) = Some event ->
      Get event "repository" = inr (VObj members) ->
      Get (VObj members) "private" = inr private ->
      ToBoolean private = false ->
      Get (VObj members) "events_url" = inr eventsUrl ->
      ToString eventsUrl = inr urlText ->
      exists item,
        enqueued (setup service secret now request) = [(item, "events")]
        /\ requiresLock item = Some false
        /\ context item !! "repoType" = None).
Proof.
  split.
  { intros S B. unfold computedSignature. now rewrite hmac_object_digest. }
  intros Hp Hs He Hj Hr Hpriv Hfalse Hu Hts.
  apply present_header_truthy in Hs; [|apply computedSignature_not_empty].
  apply present_header_truthy in He; [|reflexivity].
  assert (Hread : reads_events_url event (VObj members) eventsUrl).
  { split; [exact Hr | exact Hu]. }
  rewrite (run_to_queue service secret now request _ "push" event
             (VObj members) eventsUrl urlText
             Hp Hs He eq_refl eq_refl Hj Hread Hts).
  assert (Hsame : equal_bytes
                    (Buffer (computedSignature secret (body request)))
                    (Buffer (computedSignature secret (body request))) = true).
  { now apply equal_bytes_eq. }
  rewrite Hsame.
  assert (Hflag : private_flag (VObj members) = false).
  { unfold private_flag. rewrite Hpriv, Hfalse. reflexivity. }
  rewrite Hflag.
  eexists. split; [|split].
  - apply (enqueued_once request []). reflexivity.
  - reflexivity.
  - apply lookup_empty.
Qed.

(** C6, as amended. The target URL of every enqueued work item is the
    events URL, a [/], and the [x-github-delivery] header, each rendered
    as a template literal renders it ([undefined] as the text
    undefined); the events URL is [repository.events_url] when
    [event.repository] is truthy and [organization.events_url] otherwise.
    Whenever a body has a truthy [repository] exactly when it has the
    key, this is the URL the specification describes. *)
Theorem enqueue_target_url (service : Service) (secret now : string)
    (request : IncomingMessage) (item : Request) (name : string) :
  In (QueueCall item name) (setup service secret now request) ->
  exists event repository eventsUrl urlText deliveryText,
    JSON_parse (body request) = Some event
    /\ Get event "repository" = inr repository
    /\ (if ToBoolean repository
        then Get repository "events_url" = inr eventsUrl
        else exists organization,
               Get event "organization" = inr organization
               /\ Get organization "events_url" = inr eventsUrl)
    /\ ToString eventsUrl = inr urlText
    /\ ToString (header request "x-github-delivery") = inr deliveryText
    /\ url item = urlText +:+ "/" +:+ deliveryText
    /\ (ToBoolean repository = has_key event "repository" ->
        claimed_events_url event = inr eventsUrl).
Proof.
  intros Hin.
  destruct (queue_call_inversion _ _ _ _ _ _ Hin)
    as (signature & eventType & event & repository & eventsUrl & urlText
        & _ & _ & _ & _ & _ & Hj & [Hr Hu] & Hts & _ & ->).
  exists event, repository, eventsUrl, urlText, (delivery_text request).
  repeat (split; [assumption || apply delivery_converts || reflexivity|]).
  intros Hkey. unfold claimed_events_url. rewrite <- Hkey, Hr.
  destruct (ToBoolean repository); [exact Hu|].
  destruct Hu as (organization & -> & Hu). exact Hu.
Qed.

(** C7. When the parsed body of a request that reaches the enqueue step
    has [repository.private] equal to [true], the context of the
    enqueued work item has [repoType] set to [private]. *)
Theorem private_repository_is_marked (service : Service) (secret now : string)
    (request : IncomingMessage) (item : Request) (name : string)
    (event repository : value) :
  In (QueueCall item name) (setup service secret now request) ->
  JSON_parse (body request) = Some event ->
  Get event "repository" = inr repository ->
  Get repository "private" = inr (VBool true) ->
  context item !! "repoType" = Some (VStr "private").
Proof.
  intros Hin Hj Hr Hpriv.
  destruct (queue_call_inversion _ _ _ _ _ _ Hin)
    as (signature & eventType & event' & repository' & eventsUrl & urlText
        & _ & _ & _ & _ & _ & Hj' & [Hr' _] & _ & _ & ->).
  rewrite Hj in Hj'. injection Hj' as <-.
  rewrite Hr in Hr'. injection Hr' as <-.
  assert (Hflag : private_flag repository = true).
  { unfold private_flag. rewrite Hpriv.
    destruct repository; simpl in Hpriv; try discriminate; reflexivity. }
  rewrite Hflag. cbn [context result_at_queue]. apply lookup_insert_eq.
Qed.

Lemma split_past {A : Type} (P : A -> bool) (l1 l2 pre rest : list A) (x : A) :
  forallb (fun y => negb (P y)) l1 = true -> P x = true ->
  pre ++ x :: rest = l1 ++ l2 ->
  exists mid, pre = l1 ++ mid /\ mid ++ x :: rest = l2.
Proof.
  revert pre. induction l1 as [|y l1 IH]; intros pre Hall Hx E.
  - exists pre. now split.
  - simpl in Hall. apply andb_true_iff in Hall as [Hy Hall].
    destruct pre as [|z pre]; simpl in E; injection E as -> E.
    + rewrite Hx in Hy. discriminate.
    + destruct (IH pre Hall Hx E) as (mid & -> & Hmid).
      exists mid. now split.
Qed.

Lemma failure_last (l : list event) (e : exn number) :
  failure (l ++ [NextCall e]) = Some e.
Proof.
  induction l as [|a l IH]; [reflexivity|].
  change ((a :: l) ++ [NextCall e]) with (a :: (l ++ [NextCall e])).
  destruct (l ++ [NextCall e]) as [|b t] eqn:E.
  { destruct l; discriminate. }
  rewrite <- IH. destruct a; reflexivity.
Qed.

(** C8. In a run that calls [queue], no call on the response comes
    before the promise of that call is fulfilled; and when the promise
    is rejected, the run ends with the rejection handed on as an error,
    without any call on the response. *)
Theorem response_waits_for_queue (service : Service) (secret now : string)
    (request : IncomingMessage) (item : Request) (name : string) :
  In (QueueCall item name) (setup service secret now request) ->
  (forall pre ev rest,
     setup service secret now request = pre ++ ev :: rest ->
     touches_response ev = true ->
     exists before v between,
       queue service item name = Fulfills v
       /\ pre = before ++ QueueCall item name
                  :: PromiseSettled (inr v) :: between)
  /\ (forall reason,
        queue service item name = Rejects reason ->
        failure (setup service secret now request) = Some (Rejected reason)
        /\ response_calls (setup service secret now request) = [])
  /\ (queue service item name = Pending ->
      response_calls (setup service secret now request) = []).
Proof.
  intros Hin.
  destruct (queue_call_inversion _ _ _ _ _ _ Hin)
    as (signature & eventType & event & repository & eventsUrl & urlText
        & Hp & Hs & He & Hi & Hlen & Hj & Hread & Hts & -> & ->).
  rewrite (run_to_queue service secret now request signature eventType
             event repository eventsUrl urlText
             Hp Hs He Hi Hlen Hj Hread Hts).
  set (item := result_at_queue now request eventType event urlText
                 (private_flag repository)).
  set (lead := @received_line number request
                 :: (if equal_bytes (Buffer signature)
                          (Buffer (computedSignature secret (body request)))
                     then []
                     else [mismatch_line request signature
                             (computedSignature secret (body request))
                             eventType])).
  change (received_line request :: ?m ++ ?l) with (lead ++ l).
  assert (Hlead : forallb (fun y => negb (touches_response y)) lead = true).
  { subst lead. now destruct (equal_bytes _ _). }
  assert (Hcalls : forall l, response_calls (lead ++ l) = response_calls l).
  { intros l. subst lead. now destruct (equal_bytes _ _). }
  assert (Hfail : forall l e, failure (lead ++ l ++ [NextCall e]) = Some e).
  { intros l e. rewrite app_assoc. apply failure_last. }
  split; [|split].
  - intros pre ev rest E Hev.
    symmetry in E.
    destruct (split_past touches_response _ _ _ _ _ Hlead Hev E)
      as (mid & -> & Hmid).
    destruct mid as [|a mid]; simpl in Hmid; injection Hmid as Ha Hmid.
    { subst ev. discriminate. }
    subst a. destruct (queue service item "events") as [v|r|]; simpl in Hmid.
    + destruct mid as [|a mid]; simpl in Hmid; injection Hmid as Ha Hmid.
      { subst ev. discriminate. }
      subst a. exists lead, v, mid. split; reflexivity.
    + exfalso.
      repeat (destruct mid as [|? mid]; simpl in Hmid;
              [injection Hmid as Ha Hmid; subst ev; discriminate
              | try discriminate Hmid; injection Hmid as _ Hmid]).
      destruct mid; discriminate.
    + destruct mid; discriminate.
  - intros reason Hq. rewrite Hq. split.
    + apply (Hfail [QueueCall item "events"; PromiseSettled (inl reason)]).
    + now rewrite Hcalls.
  - intros Hq. rewrite Hq. now rewrite Hcalls.
Qed.

(** *** Further properties *)

(** X1. While the configured provider is not [webhook], every request is
    answered 500 with the content type [text/plain] and no body, nothing
    is enqueued, and what is logged is the function [fatal]. *)
Theorem disabled_provider_is_refused (service : Service) (secret now : string)
    (request : IncomingMessage) :
  provider service <> VStr "webhook" ->
  setup service secret now request
  = [LogCall Warn [Fun "fatal"; delivery_of request];
     StatusCall 500; SetHeaderCall "content-type" "text/plain"; EndCall None]
  /\ response_after (setup service secret now request)
     = {| statusCode := 500;
          response_headers := {["content-type" := "text/plain"]};
          sent := None; finished := true |}
  /\ enqueued (setup service secret now request) = [].
Proof.
  intros Hp.
  assert (E : strict_eq_string (provider service) "webhook" = false).
  { destruct (strict_eq_string _ _) eqn:E; [|reflexivity].
    apply enabled_provider in E. contradiction. }
  unfold setup, post. rewrite E. repeat split.
Qed.

(** X2. A body that is not JSON ends the run in the SyntaxError of
    [JSON.parse], once the signature has passed the length check:
    nothing is enqueued and the response is not touched. *)
Theorem unparseable_body_throws (service : Service) (secret now : string)
    (request : IncomingMessage) (signature eventType : string) :
  provider service = VStr "webhook" ->
  truthy_header request "x-hub-signature" = Some signature ->
  truthy_header request "x-github-event" = Some eventType ->
  includes ignored_events eventType = false ->
  length (Buffer signature)
    = length (Buffer (computedSignature secret (body request))) ->
  JSON_parse (body request) = None ->
  let tr := setup service secret now request in
  failure tr = Some SyntaxError_JSON
  /\ enqueued tr = []
  /\ response_calls tr = [].
Proof.
  intros Hp Hs He Hi Hlen Hj tr. subst tr.
  through_checks Hp Hs He Hi. unfold timingSafeEqual.
  rewrite Hlen, Nat.eqb_refl.
  cbn -[includes computedSignature Buffer equal_bytes].
  destruct (equal_bytes _ _); simpl; rewrite Hj; repeat split.
Qed.

(** X3. A run calls [queue] at most once, and only for the queue
    [events]. *)
Theorem at_most_one_enqueue (service : Service) (secret now : string)
    (request : IncomingMessage) :
  enqueued (setup service secret now request) = []
  \/ exists item, enqueued (setup service secret now request) = [(item, "events")].
Proof.
  destruct (enqueued (setup service secret now request)) as [|[item name] l] eqn:E;
    [now left | right].
  assert (Hin : In (QueueCall item name) (setup service secret now request)).
  { revert E. generalize (setup service secret now request) as tr.
    induction tr as [|a tr IH]; [discriminate|].
    destruct a; simpl; intros E; try (right; now apply IH).
    injection E as -> -> _. now left. }
  destruct (queue_call_inversion _ _ _ _ _ _ Hin)
    as (signature & eventType & event & repository & eventsUrl & urlText
        & Hp & Hs & He & Hi & Hlen & Hj & Hread & Hts & -> & ->).
  rewrite (run_to_queue service secret now request signature eventType
             event repository eventsUrl urlText
             Hp Hs He Hi Hlen Hj Hread Hts) in E.
  rewrite enqueued_once in E by apply mismatch_not_enqueued.
  injection E as <-. eexists. reflexivity.
Qed.

(** X5. A signature header that is present but empty counts as missing: the
    request is answered 400 and nothing is enqueued. *)
Theorem empty_signature_is_rejected (service : Service) (secret now : string)
    (request : IncomingMessage) :
  provider service = VStr "webhook" ->
  headers request !! "x-hub-signature" = Some "" ->
  let tr := setup service secret now request in
  statusCode (response_after tr) = 400%Z
  /\ sent (response_after tr)
     = Some (Quote "Missing signature or event type on GitHub webhook")
  /\ enqueued tr = [].
Proof.
  intros Hp Hs tr. subst tr.
  assert (Hn : truthy_header request "x-hub-signature" = None).
  { unfold truthy_header. now rewrite Hs. }
  unfold setup, post. rewrite Hp, Hn. repeat split.
Qed.

End Runs.

(** ** Every run, case by case *)

Section Coverage.
Context {number : Type} `{Engine number}.

Local Notation value := (value number) (only parsing).
Local Notation event := (@event number) (only parsing).
Local Notation promise := (@promise number) (only parsing).
Local Notation Request := (@Request number) (only parsing).
Local Notation Service := (@Service number) (only parsing).

Ltac past_checks Hp Hs He Hi :=
  unfold setup, post; rewrite Hp, Hs, He;
  cbn -[includes computedSignature Buffer timingSafeEqual]; rewrite Hi.

Ltac past_comparison Hp Hs He Hi Hlen :=
  past_checks Hp Hs He Hi; unfold timingSafeEqual;
  rewrite Hlen, Nat.eqb_refl;
  cbn -[includes computedSignature Buffer equal_bytes];
  unfold received_line.

(** The seven ways a run can go. *)
Lemma run_cases (service : Service) (secret now : string)
    (request : IncomingMessage) :
  let tr := setup service secret now request in
  (provider service <> VStr "webhook"
   /\ tr = [LogCall Warn [Fun "fatal"; delivery_of request];
            StatusCall 500; SetHeaderCall "content-type" "text/plain";
            EndCall None])
  \/ (provider service = VStr "webhook"
      /\ (truthy_header request "x-hub-signature" = None
          \/ truthy_header request "x-github-event" = None)
      /\ tr = [received_line request;
               LogCall Error
                 [Val (VStr "Missing signature or event type on GitHub webhook");
                  delivery_of request];
               StatusCall 400; SetHeaderCall "content-type" "text/plain";
               EndCall (Some (Quote "Missing signature or event type on GitHub webhook"))])
  \/ (exists signature eventType,
        provider service = VStr "webhook"
        /\ truthy_header request "x-hub-signature" = Some signature
        /\ truthy_header request "x-github-event" = Some eventType
        /\ ((includes ignored_events eventType = true
             /\ tr = [received_line request;
                      LogCall Info
                        [Val (VStr "Ignored"); Val (VStr "Webhook event");
                         Val (VObj [("delivery", header request "x-github-delivery");
                                    ("eventType", VStr eventType);
                                    ("signature", VStr signature)])];
                      StatusCall 200; EndCall None])
            \/ (includes ignored_events eventType = false
                /\ length (Buffer signature)
                   <> length (Buffer (computedSignature secret (body request)))
                /\ tr = [received_line request; NextCall RangeError_length])
            \/ (includes ignored_events eventType = false
                /\ length (Buffer signature)
                   = length (Buffer (computedSignature secret (body request)))
                /\ ((JSON_parse (body request) = None
                     /\ tr = received_line request
                               :: mismatch_lines request secret signature eventType
                               ++ [NextCall SyntaxError_JSON])
                    \/ (exists event e,
                          JSON_parse (body request) = Some event
                          /\ ((exists prop base, e = TypeError_read prop base)
                              \/ exists object, e = TypeError_primitive object)
                          /\ tr = received_line request
                                    :: mismatch_lines request secret signature eventType
                                    ++ [NextCall e])
                    \/ (exists event repository eventsUrl urlText,
                          JSON_parse (body request) = Some event
                          /\ reads_events_url event repository eventsUrl
                          /\ ToString eventsUrl = inr urlText
                          /\ tr = received_line request
                                    :: mismatch_lines request secret signature eventType
                                    ++ QueueCall
                                         (result_at_queue now request eventType
                                            event urlText
                                            (private_flag repository)) "events"
                                    :: after_queue request urlText
                                         (queue service
                                            (result_at_queue now request
                                               eventType event urlText
                                               (private_flag repository))
                                            "events")))))).
Proof.
  intros tr. subst tr.
  destruct (strict_eq_string (provider service) "webhook") eqn:Hp.
  2:{ left. split.
      - intros E. apply enabled_provider in E. congruence.
      - unfold setup, post. rewrite Hp. reflexivity. }
  right. apply enabled_provider in Hp.
  destruct (truthy_header request "x-hub-signature") as [signature|] eqn:Hs.
  2:{ left. split; [exact Hp|]. split; [now left|].
      unfold setup, post. rewrite Hp, Hs. reflexivity. }
  destruct (truthy_header request "x-github-event") as [eventType|] eqn:He.
  2:{ left. split; [exact Hp|]. split; [now right|].
      unfold setup, post. rewrite Hp, Hs, He. reflexivity. }
  right. exists signature, eventType.
  split; [exact Hp|]. split; [reflexivity|]. split; [reflexivity|].
  destruct (includes ignored_events eventType) eqn:Hi.
  { left. split; [reflexivity|]. past_checks Hp Hs He Hi. reflexivity. }
  right.
  destruct (Nat.eqb (length (Buffer signature))
              (length (Buffer (computedSignature secret (body request)))))
    eqn:Hlen.
  2:{ left. split; [reflexivity|]. split; [now apply Nat.eqb_neq|].
      past_checks Hp Hs He Hi. unfold timingSafeEqual. rewrite Hlen.
      reflexivity. }
  right. apply Nat.eqb_eq in Hlen. split; [reflexivity|]. split; [exact Hlen|].
  unfold mismatch_lines.
  destruct (JSON_parse (body request)) as [event|] eqn:Hj.
  2:{ left. split; [reflexivity|]. past_comparison Hp Hs He Hi Hlen.
      destruct (equal_bytes _ _); simpl; rewrite Hj; reflexivity. }
  right.
  pose proof (run_to_throw service secret now request signature eventType
                event) as Hthrow.
  assert (Hexn : forall (v : value) name e,
            Get v name = inl e -> exists prop base, e = TypeError_read prop base).
  { intros v name e. destruct v; simpl; intros [= <-]; eauto. }
  pose proof ToString_throws as Hprim.
  assert (Hqueue : forall repository eventsUrl,
            reads_events_url event repository eventsUrl ->
            (exists event0 e,
               Some event = Some event0
               /\ ((exists prop base, e = TypeError_read prop base)
                   \/ exists object, e = TypeError_primitive object)
               /\ setup service secret now request
                  = received_line request
                      :: (if equal_bytes (Buffer signature)
                               (Buffer (computedSignature secret (body request)))
                          then []
                          else [mismatch_line request signature
                                  (computedSignature secret (body request))
                                  eventType])
                      ++ [NextCall e])
            \/ (exists event0 repository0 eventsUrl0 urlText,
                  Some event = Some event0
                  /\ reads_events_url event0 repository0 eventsUrl0
                  /\ ToString eventsUrl0 = inr urlText
                  /\ setup service secret now request
                     = received_line request
                         :: (if equal_bytes (Buffer signature)
                                  (Buffer (computedSignature secret (body request)))
                             then []
                             else [mismatch_line request signature
                                     (computedSignature secret (body request))
                                     eventType])
                         ++ QueueCall
                              (result_at_queue now request eventType event0
                                 urlText (private_flag repository0)) "events"
                         :: after_queue request urlText
                              (queue service
                                 (result_at_queue now request eventType event0
                                    urlText (private_flag repository0))
                                 "events"))).
  { intros repository eventsUrl Hread.
    case_eq (ToString eventsUrl); [intros e Hts | intros urlText Hts].
    - left. exists event, e. split; [reflexivity|].
      split; [right; now apply (Hprim eventsUrl)|].
      apply (Hthrow e Hp Hs He Hi Hlen Hj).
      right. exists repository. split; [apply Hread|].
      right. exists eventsUrl. now split.
    - right. exists event, repository, eventsUrl, urlText.
      split; [reflexivity|]. split; [exact Hread|]. split; [exact Hts|].
      apply (run_to_queue service secret now request signature eventType
               event repository eventsUrl urlText
               Hp Hs He Hi Hlen Hj Hread Hts). }
  case_eq (Get event "repository"); [intros e Hr | intros repository Hr].
  { left. exists event, e. split; [reflexivity|].
    split; [left; now apply (Hexn _ _ _ Hr)|].
    apply (Hthrow e Hp Hs He Hi Hlen Hj). now left. }
  destruct (ToBoolean repository) eqn:Ht.
  { destruct (truthy_readable repository "events_url" Ht) as [u Hu].
    apply (Hqueue repository u). split; [exact Hr|]. now rewrite Ht. }
  case_eq (Get event "organization"); [intros e Ho | intros organization Ho].
  { left. exists event, e. split; [reflexivity|].
    split; [left; now apply (Hexn _ _ _ Ho)|].
    apply (Hthrow e Hp Hs He Hi Hlen Hj).
    right. exists repository. split; [exact Hr|]. left. split; [exact Ht|].
    now left. }
  case_eq (Get organization "events_url"); [intros e Hu | intros u Hu].
  { left. exists event, e. split; [reflexivity|].
    split; [left; now apply (Hexn _ _ _ Hu)|].
    apply (Hthrow e Hp Hs He Hi Hlen Hj).
    right. exists repository. split; [exact Hr|]. left. split; [exact Ht|].
    right. exists organization. now split. }
  apply (Hqueue repository u). split; [exact Hr|]. rewrite Ht.
  exists organization. now split.
Qed.

Ltac by_cases service secret now request :=
  let Hc := fresh "Hc" in
  pose proof (run_cases service secret now request) as Hc;
  cbv zeta in Hc;
  destruct Hc as
    [ [Hp Htr]
    | [ (Hp & Hmiss & Htr)
      | (signature & eventType & Hp & Hs & He &
         [ [Hi Htr]
         | [ (Hi & Hlen & Htr)
           | (Hi & Hlen &
              [ [Hj Htr]
              | [ (event & e & Hj & Hkind & Htr)
                | (event & repository & eventsUrl & urlText
                   & Hj & Hread & Hts & Htr) ] ]) ] ]) ] ];
  rewrite Htr; clear Htr; unfold mismatch_lines, received_line.

(** *** How a run ends *)

(** X6. A run ends in exactly one of three ways. Either the response is
    ended, once, as the last thing that happens, and no error is raised;
    or an error is handed to [next] and the response has not been
    touched; or the handler stays suspended on an enqueue call whose
    promise is pending, the response untouched. *)
Theorem run_ends_one_way (service : Service) (secret now : string)
    (request : IncomingMessage) :
  let tr := setup service secret now request in
  (exists before chunk,
     tr = before ++ [EndCall chunk]
     /\ end_calls before = []
     /\ failure tr = None)
  \/ (exists e, failure tr = Some e /\ response_calls tr = [])
  \/ (failure tr = None
      /\ response_calls tr = []
      /\ exists item before,
           tr = before ++ [QueueCall item "events"]
           /\ queue service item "events" = Pending).
Proof.
  intros tr. subst tr. by_cases service secret now request.
  - left. eexists [_; _; _], _. repeat split.
  - left. eexists [_; _; _; _], _. repeat split.
  - left. eexists [_; _; _], _. repeat split.
  - right. left. eexists. repeat split.
  - right. left. destruct (equal_bytes _ _); eexists; repeat split.
  - right. left. destruct (equal_bytes _ _); eexists; repeat split.
  - destruct (queue service _ "events") as [v|r|] eqn:Hq; cbn [after_queue].
    + left. destruct (equal_bytes _ _).
      * eexists [_; _; _; _; _], _. repeat split.
      * eexists [_; _; _; _; _; _], _. repeat split.
    + right. left. destruct (equal_bytes _ _); eexists; repeat split.
    + right. right. destruct (equal_bytes _ _); repeat split.
      * eexists _, [_]. split; [reflexivity | exact Hq].
      * eexists _, [_; _]. split; [reflexivity | exact Hq].
Qed.

(** X7. Whatever the request, the response a run leaves is one of four:
    untouched; 200 without header or body; 400 with the content type
    [text/plain] and the JSON text of the one error message; 500 with
    the content type [text/plain] and no body. *)
Theorem response_is_one_of_four (service : Service) (secret now : string)
    (request : IncomingMessage) :
  let r := response_after (setup service secret now request) in
  r = fresh_response \/ r = ok_response
  \/ r = bad_request_response \/ r = not_enabled_response.
Proof.
  intros r. subst r. by_cases service secret now request.
  - right. right. right. reflexivity.
  - right. right. left. reflexivity.
  - right. left. reflexivity.
  - left. reflexivity.
  - left. now destruct (equal_bytes _ _).
  - left. now destruct (equal_bytes _ _).
  - destruct (queue service _ "events"); cbn [after_queue].
    + right. left. now destruct (equal_bytes _ _).
    + left. now destruct (equal_bytes _ _).
    + left. now destruct (equal_bytes _ _).
Qed.

(** X8. Every log call of a run, at any level, ends with an object whose
    [delivery] member is the [x-github-delivery] header of the request
    ([undefined] when the header is missing). *)
Theorem log_lines_carry_delivery (service : Service) (secret now : string)
    (request : IncomingMessage) :
  Forall (fun args => delivery_tag args
                      = Some (header request "x-github-delivery"))
         (log_calls (setup service secret now request)).
Proof.
  by_cases service secret now request.
  all: try (destruct (equal_bytes _ _)).
  all: try (destruct (queue service _ "events")).
  all: simpl; repeat constructor.
Qed.

(** *** What is enqueued *)

Lemma Buffer_length (s : string) : length (Buffer s) = String.length s.
Proof. apply bytes_of_string_length. Qed.

Lemma signature_has_45_bytes (secret data : string) :
  length (Buffer (computedSignature secret data)) = 45.
Proof.
  rewrite Buffer_length.
  unfold computedSignature, Hmac_digest_hex.
  rewrite append_length, hex_of_bytes_length.
  unfold SHA1.hash. now rewrite sha1_final_length.
Qed.

(** X9. The queue is called only for a request that found the provider
    [webhook], carries an [x-hub-signature] of 45 bytes and an
    [x-github-event] that is not empty and not on the ignore-list, and
    has a body that is a JSON text; and only under the name [events]. *)
Theorem enqueue_requires_checks (service : Service) (secret now : string)
    (request : IncomingMessage) (item : Request) (name : string) :
  In (QueueCall item name) (setup service secret now request) ->
  provider service = VStr "webhook"
  /\ name = "events"
  /\ (exists signature,
        headers request !! "x-hub-signature" = Some signature
        /\ String.length signature = 45)
  /\ (exists eventType,
        headers request !! "x-github-event" = Some eventType
        /\ eventType <> ""
        /\ eventType <> "check_run" /\ eventType <> "check_suite")
  /\ exists event, JSON_parse (body request) = Some event.
Proof.
  intros Hin.
  destruct (queue_call_inversion _ _ _ _ _ _ Hin)
    as (signature & eventType & event & repository & eventsUrl & urlText
        & Hp & Hs & He & Hi & Hlen & Hj & _ & _ & Hname & _).
  apply truthy_header_present in Hs as [Hs _].
  apply truthy_header_present in He as [He Hne].
  rewrite signature_has_45_bytes, Buffer_length in Hlen.
  repeat split; eauto.
  exists eventType. repeat split; try assumption.
  - intros ->. discriminate Hi.
  - intros ->. discriminate Hi.
Qed.

(** X10. Every work item handed to the queue has the type
    [event_trigger], [requiresLock] set to false, and a payload made of
    the parsed body, [etag] 1, the time of the request, the
    [x-github-event] header as [type] and the [x-github-delivery] header
    as [deliveryId]. *)
Theorem work_item_content (service : Service) (secret now : string)
    (request : IncomingMessage) (item : Request) (name : string) :
  In (QueueCall item name) (setup service secret now request) ->
  type item = "event_trigger"
  /\ requiresLock item = Some false
  /\ exists event eventType,
       JSON_parse (body request) = Some event
       /\ headers request !! "x-github-event" = Some eventType
       /\ payload item
          = Some {| payload_body := event; etag := 1; fetchedAt := now;
                    payload_type := eventType;
                    deliveryId := header request "x-github-delivery" |}.
Proof.
  intros Hin.
  destruct (queue_call_inversion _ _ _ _ _ _ Hin)
    as (signature & eventType & event & repository & eventsUrl & urlText
        & _ & _ & He & _ & _ & Hj & _ & _ & _ & ->).
  apply truthy_header_present in He as [He _].
  split; [reflexivity|]. split; [reflexivity|].
  exists event, eventType. repeat split; assumption.
Qed.

(** X11. The context of an enqueued work item is empty or holds the one
    member [repoType] with the value [private]; it holds it exactly when
    [event.repository] is truthy and its [private] member is truthy, be
    it [true] or any other truthy value. *)
Theorem private_mark_is_exact (service : Service) (secret now : string)
    (request : IncomingMessage) (item : Request) (name : string) :
  In (QueueCall item name) (setup service secret now request) ->
  exists event repository,
    JSON_parse (body request) = Some event
    /\ Get event "repository" = inr repository
    /\ (context item = ∅
        \/ context item = {["repoType" := VStr "private"]})
    /\ (context item !! "repoType" = Some (VStr "private")
        <-> ToBoolean repository = true
            /\ exists p, Get repository "private" = inr p
                         /\ ToBoolean p = true).
Proof.
  intros Hin.
  destruct (queue_call_inversion _ _ _ _ _ _ Hin)
    as (signature & eventType & event & repository & eventsUrl & urlText
        & _ & _ & _ & _ & _ & Hj & [Hr _] & _ & _ & ->).
  exists event, repository. split; [exact Hj|]. split; [exact Hr|].
  cbn [context result_at_queue]. unfold private_flag.
  destruct (ToBoolean repository) eqn:Ht; cbn [andb].
  - destruct (truthy_readable repository "private" Ht) as [p Hpv].
    rewrite Hpv. destruct (ToBoolean p) eqn:Hb.
    + split; [right; apply insert_empty|]. split.
      * intros _. split; [reflexivity|]. now exists p.
      * intros _. apply lookup_insert_eq.
    + split; [now left|]. split.
      * rewrite lookup_empty. discriminate.
      * intros [_ (q & Hq & Hqt)]. congruence.
  - split; [now left|]. split.
    + rewrite lookup_empty. discriminate.
    + intros [E _]. discriminate.
Qed.

(** X12. Neither the events URL nor the delivery id is checked before
    the queue is called: when [event.repository] is an object without
    [events_url] and the request has no [x-github-delivery] header, the
    work item is enqueued all the same, addressed
    [undefined/undefined]. *)
Theorem url_parts_are_not_checked (service : Service) (secret now : string)
    (request : IncomingMessage) (signature eventType : string)
    (event : value) (members : list (string * value)) :
  provider service = VStr "webhook" ->
  truthy_header request "x-hub-signature" = Some signature ->
  truthy_header request "x-github-event" = Some eventType ->
  includes ignored_events eventType = false ->
  String.length signature = 45 ->
  JSON_parse (body request) = Some event ->
  Get event "repository" = inr (VObj members) ->
  lookup_member "events_url" members = None ->
  headers request !! "x-github-delivery" = None ->
  exists item,
    enqueued (setup service secret now request) = [(item, "events")]
    /\ url item = "undefined/undefined".
Proof.
  intros Hp Hs He Hi Hlen Hj Hr Hu Hd.
  assert (Hlen' : length (Buffer signature)
                  = length (Buffer (computedSignature secret (body request)))).
  { now rewrite signature_has_45_bytes, Buffer_length. }
  assert (Hread : reads_events_url event (VObj members) VUndefined).
  { split; [exact Hr|]. simpl. now rewrite Hu. }
  rewrite (run_to_queue service secret now request signature eventType
             event (VObj members) VUndefined "undefined"
             Hp Hs He Hi Hlen' Hj Hread eq_refl).
  eexists. split.
  - apply enqueued_once. apply mismatch_not_enqueued.
  - cbn [url result_at_queue]. unfold delivery_text. rewrite Hd. reflexivity.
Qed.

(** *** What the signature decides *)

(** X13. The content of the signature and the secret decide nothing but
    a log line: two requests with the same body and the same headers
    apart from [x-hub-signature], whose signatures have the same byte
    length, lead to the same enqueue calls, the same response and the
    same error, whatever the two secrets are. *)
Theorem signature_content_decides_nothing (service : Service)
    (secret1 secret2 now : string) (request1 request2 : IncomingMessage)
    (signature1 signature2 : string) :
  body request1 = body request2 ->
  (forall name, name <> "x-hub-signature" ->
     headers request1 !! name = headers request2 !! name) ->
  headers request1 !! "x-hub-signature" = Some signature1 ->
  headers request2 !! "x-hub-signature" = Some signature2 ->
  String.length signature1 = String.length signature2 ->
  let tr1 := setup service secret1 now request1 in
  let tr2 := setup service secret2 now request2 in
  enqueued tr1 = enqueued tr2
  /\ response_after tr1 = response_after tr2
  /\ failure tr1 = failure tr2.
Proof.
  intros Hb Hh Hs1 Hs2 Hlen tr1 tr2. subst tr1 tr2.
  unfold setup, post, warn, fatal, delivery_of, header, truthy_header.
  rewrite Hs1, Hs2, <- Hb.
  rewrite <- (Hh "x-github-event") by discriminate.
  rewrite <- (Hh "x-github-delivery") by discriminate.
  assert (Hempty : String.eqb signature2 "" = String.eqb signature1 "").
  { destruct signature1, signature2; simpl in *; congruence. }
  rewrite Hempty.
  destruct (strict_eq_string (provider service) "webhook"); [|repeat split].
  cbn [negb].
  destruct (String.eqb signature1 ""); [repeat split|].
  destruct (headers request1 !! "x-github-event") as [eventType|];
    [|repeat split].
  destruct (String.eqb eventType ""); [repeat split|].
  destruct (headers request1 !! "x-github-delivery") as [delivery|].
  all: cbn -[includes computedSignature Buffer timingSafeEqual].
  all: destruct (includes ignored_events eventType); [repeat split|].
  all: unfold timingSafeEqual.
  all: rewrite !signature_has_45_bytes, !Buffer_length, <- Hlen.
  all: destruct (Nat.eqb (String.length signature1) 45); [|repeat split].
  all: cbn -[computedSignature Buffer equal_bytes].
  all: destruct (equal_bytes (Buffer signature1) _),
                (equal_bytes (Buffer signature2) _);
         cbn -[computedSignature].
  all: destruct (JSON_parse (body request1)) as [event|]; [|repeat split].
  all: cbn -[computedSignature].
  all: destruct (Get event "repository") as [e|repository]; [repeat split|].
  all: cbn -[computedSignature].
  all: destruct (ToBoolean repository) eqn:Ht; cbn -[computedSignature].
  all: try (destruct (truthy_readable repository "events_url" Ht) as [u ->];
            destruct (truthy_readable repository "private" Ht) as [p ->];
            cbn -[computedSignature];
            destruct (ToString u) as [e|urlText]; [repeat split|];
            cbn -[computedSignature];
            destruct (ToBoolean p); cbn -[computedSignature]).
  all: try (destruct (Get event "organization") as [e|organization];
            [repeat split|]; cbn -[computedSignature];
            destruct (Get organization "events_url") as [e|u];
            [repeat split|]; cbn -[computedSignature];
            destruct (ToString u) as [e|urlText]; [repeat split|];
            cbn -[computedSignature]).
  all: destruct (queue service _ "events"); repeat split.
Qed.

(** X14. With a signature of 45 bytes on a request that passes the
    earlier checks, the line [X-Hub-Signature does not match blob
    signature] is logged exactly when the signature differs from the
    computed one; with any other length it is never logged. *)
Theorem mismatch_is_logged_iff (service : Service) (secret now : string)
    (request : IncomingMessage) (signature eventType : string) :
  provider service = VStr "webhook" ->
  truthy_header request "x-hub-signature" = Some signature ->
  truthy_header request "x-github-event" = Some eventType ->
  includes ignored_events eventType = false ->
  In (mismatch_line request signature
        (computedSignature secret (body request)) eventType)
     (setup service secret now request)
  <-> String.length signature = 45
      /\ signature <> computedSignature secret (body request).
Proof.
  intros Hp0 Hs0 He0 Hi0.
  assert (Hdec : forall rest : list event,
            (forall ev, In ev rest ->
               match ev with
               | LogCall Info (Val (VStr "X-Hub-Signature") :: _) => False
               | _ => True
               end) ->
            length (Buffer signature)
              = length (Buffer (computedSignature secret (body request))) ->
            In (mismatch_line request signature
                  (computedSignature secret (body request)) eventType)
               (received_line request
                  :: mismatch_lines request secret signature eventType ++ rest)
            <-> String.length signature = 45
                /\ signature <> computedSignature secret (body request)).
  { intros rest Hrest Hlen.
    rewrite signature_has_45_bytes, Buffer_length in Hlen.
    unfold mismatch_lines.
    destruct (equal_bytes _ _) eqn:E.
    - apply equal_bytes_eq, bytes_of_string_inj in E. split.
      + intros [F | F]; [discriminate F|]. apply Hrest in F. contradiction.
      + intros [_ Hne]. contradiction.
    - split.
      + intros _. split; [exact Hlen|]. intros ->.
        assert (T : equal_bytes
                      (Buffer (computedSignature secret (body request)))
                      (Buffer (computedSignature secret (body request)))
                    = true) by now apply equal_bytes_eq.
        congruence.
      + intros _. right. left. reflexivity. }
  pose proof (run_cases service secret now request) as Hc. cbv zeta in Hc.
  destruct Hc as
    [ [Hp _]
    | [ (_ & Hmiss & _)
      | (signature' & eventType' & _ & Hs & He &
         [ [Hi _]
         | [ (_ & Hlen & Htr)
           | (_ & Hlen &
              [ [Hj Htr]
              | [ (event & e & Hj & _ & Htr)
                | (event & repository & eventsUrl & urlText
                   & Hj & Hread & _ & Htr) ] ]) ] ]) ] ].
  - contradiction.
  - destruct Hmiss; congruence.
  - rewrite He0 in He. injection He as <-. congruence.
  - rewrite Hs0 in Hs. injection Hs as <-.
    rewrite Htr. rewrite signature_has_45_bytes, Buffer_length in Hlen. split.
    + intros [F | [F | []]]; discriminate F.
    + intros [E _]. contradiction.
  - rewrite Hs0 in Hs. injection Hs as <-. rewrite He0 in He. injection He as <-.
    rewrite Htr. apply Hdec; [|exact Hlen].
    intros ev [<- | []]. exact I.
  - rewrite Hs0 in Hs. injection Hs as <-. rewrite He0 in He. injection He as <-.
    rewrite Htr. apply Hdec; [|exact Hlen].
    intros ev [<- | []]. exact I.
  - rewrite Hs0 in Hs. injection Hs as <-. rewrite He0 in He. injection He as <-.
    rewrite Htr. apply Hdec; [|exact Hlen].
    intros ev [<- | Hin]; [exact I|].
    destruct (queue service _ "events"); simpl in Hin.
    + destruct Hin as [<- | [<- | [<- | [<- | []]]]]; exact I.
    + destruct Hin as [<- | [<- | []]]; exact I.
    + contradiction.
Qed.

End Coverage.

(** ** The format of the signature *)

Lemma hex_digit_is_lower_hex (d : Z) :
  (0 <= d < 16)%Z -> is_lower_hex (hex_digit d) = true.
Proof.
  intros Hd.
  assert (Hall : forallb (fun k => is_lower_hex (hex_digit (Z.of_nat k)))
                   (seq 0 16) = true) by (vm_compute; reflexivity).
  rewrite forallb_forall in Hall.
  rewrite <- (Z2Nat.id d) by lia. apply Hall, in_seq. lia.
Qed.

Lemma hex_of_bytes_is_lower_hex (bs : list Z) :
  Forall (fun b => 0 <= b < 256)%Z bs ->
  all_chars is_lower_hex (hex_of_bytes bs) = true.
Proof.
  induction 1 as [|b bs Hb _ IH]; [reflexivity|].
  cbn [hex_of_bytes all_chars]. rewrite IH.
  rewrite !hex_digit_is_lower_hex; [reflexivity| |].
  - change 15%Z with (Z.ones 4). rewrite Z.land_ones by lia.
    apply Z.mod_pos_bound. lia.
  - rewrite Z.shiftr_div_pow2 by lia. change (2 ^ 4)%Z with 16%Z.
    split; [apply Z.div_pos; lia | apply Z.div_lt_upper_bound; lia].
Qed.

Lemma big_endian_bytes (n : nat) (x : Z) :
  Forall (fun b => 0 <= b < 256)%Z (big_endian n x).
Proof.
  induction n as [|n IH]; [constructor|].
  cbn [big_endian]. constructor; [|exact IH].
  change 255%Z with (Z.ones 8). rewrite Z.land_ones by lia.
  apply Z.mod_pos_bound. lia.
Qed.

(** X16. For every secret and body the computed signature is [sha1=]
    followed by exactly forty characters, each one of [0-9a-f]: a
    signature written with capital hexadecimal digits never equals
    it. *)
Theorem computedSignature_is_lower_hex (secret data : string) :
  exists digest,
    computedSignature secret data = "sha1=" +:+ digest
    /\ String.length digest = 40
    /\ all_chars is_lower_hex digest = true.
Proof.
  exists (Hmac_digest_hex (Hmac_update (createHmac sha1 secret) data)).
  split; [reflexivity|]. unfold Hmac_digest_hex, SHA1.hash. split.
  - now rewrite hex_of_bytes_length, sha1_final_length.
  - apply hex_of_bytes_is_lower_hex. unfold SHA1.final.
    repeat (apply Forall_app; split); apply big_endian_bytes.
Qed.

(** ** The body of the 400 response *)

Lemma char_code (c : ascii) : JSON.char (byte_of_ascii c) = c.
Proof.
  unfold JSON.char, byte_of_ascii. rewrite N2Z.id. apply ascii_N_embedding.
Qed.

Lemma byte_of_ascii_range (c : ascii) : (0 <= byte_of_ascii c < 256)%Z.
Proof.
  unfold byte_of_ascii. split; [apply N2Z.is_nonneg|].
  change 256%Z with (Z.of_N 256). apply N2Z.inj_lt, N_ascii_bounded.
Qed.

Lemma append_nil_l (s : string) : "" +:+ s = s.
Proof. reflexivity. Qed.

Ltac read_escape IH :=
  set (q := quote_char _); vm_compute in q; subst q;
  set (c := JSON.char _); vm_compute in c; subst c;
  simpl; rewrite ?append_nil_l, IH; reflexivity.

(** A control character, which [JSON.stringify] writes as an escape. *)
Lemma parse_string_control (k : nat) (s rest tail : string) :
  k < 32 ->
  JSON.parse_string rest None = Some (s, tail) ->
  JSON.parse_string (quote_char (JSON.char (Z.of_nat k)) +:+ rest) None
  = Some (String (JSON.char (Z.of_nat k)) s, tail).
Proof.
  intros Hk IH.
  assert (Hin : In k (seq 0 32)) by (apply in_seq; lia).
  cbn [seq] in Hin.
  repeat (destruct Hin as [<- | Hin]; [read_escape IH|]).
  contradiction.
Qed.

(** The quotation mark and the backslash. *)
Lemma parse_string_quoted (s rest tail : string) :
  JSON.parse_string rest None = Some (s, tail) ->
  JSON.parse_string (quote_char (JSON.char 34) +:+ rest) None
  = Some (String (JSON.char 34) s, tail)
  /\ JSON.parse_string (quote_char (JSON.char 92) +:+ rest) None
     = Some (String (JSON.char 92) s, tail).
Proof. intros IH. split; read_escape IH. Qed.

Lemma parse_string_plain (c : ascii) (s rest tail : string) :
  (32 <= byte_of_ascii c)%Z -> byte_of_ascii c <> 34%Z ->
  byte_of_ascii c <> 92%Z ->
  JSON.parse_string rest None = Some (s, tail) ->
  JSON.parse_string (quote_char c +:+ rest) None = Some (String c s, tail).
Proof.
  intros H32 H34 H92 IH. unfold quote_char.
  repeat match goal with
         | |- context [(?a =? ?b)%Z] => destruct (Z.eqb_spec a b); [lia|]
         | |- context [(?a <? ?b)%Z] => destruct (Z.ltb_spec a b); [lia|]
         end.
  change (String c "" +:+ rest) with (String c rest).
  cbn [JSON.parse_string]. unfold JSON.code.
  repeat match goal with
         | |- context [(?a =? ?b)%Z] => destruct (Z.eqb_spec a b); [lia|]
         | |- context [(?a <? ?b)%Z] => destruct (Z.ltb_spec a b); [lia|]
         end.
  rewrite IH. reflexivity.
Qed.

Lemma append_assoc (a b c : string) : (a +:+ b) +:+ c = a +:+ (b +:+ c).
Proof.
  induction a as [|x a IH]; [reflexivity|].
  change (String x ((a +:+ b) +:+ c) = String x (a +:+ (b +:+ c))).
  now rewrite IH.
Qed.

Lemma parse_string_quote_chars (s tail : string) :
  JSON.parse_string (quote_chars s +:+ String (JSON.char 34) tail) None
  = Some (s, tail).
Proof.
  induction s as [|c s IH]; [reflexivity|].
  cbn [quote_chars]. rewrite append_assoc.
  pose proof (byte_of_ascii_range c) as Hc.
  destruct (Z.ltb_spec (byte_of_ascii c) 32) as [Hlt | Hge].
  { rewrite <- (char_code c), <- (Z2Nat.id (byte_of_ascii c)) by lia.
    apply parse_string_control; [lia | exact IH]. }
  destruct (Z.eqb_spec (byte_of_ascii c) 34) as [E | H34].
  { rewrite <- (char_code c), E. now apply parse_string_quoted. }
  destruct (Z.eqb_spec (byte_of_ascii c) 92) as [E | H92].
  { rewrite <- (char_code c), E. now apply parse_string_quoted. }
  now apply parse_string_plain.
Qed.

Lemma parse_value_string (fuel : nat) (rest : string) :
  JSON.parse_value (S fuel) (String (JSON.char 34) rest)
  = JSON.parse_string rest None
      ≫= (fun '(text, after) => Some (VStr text, after)).
Proof. reflexivity. Qed.

(** X17. Whatever message [fatal] is given, the body it sends is a JSON
    text, and [JSON.parse] reads the message back from it. *)
Theorem fatal_body_reads_back (request : IncomingMessage) (error : string) :
  end_calls (wrap (@fatal JSON.decimal JSON.engine request error))
  = [Some (Quote error)]
  /\ JSON_parse (Quote error) = Some (@VStr JSON.decimal error).
Proof.
  split; [reflexivity|].
  change (Quote error)
    with (String (JSON.char 34) (quote_chars error +:+ String (JSON.char 34) "")).
  unfold JSON_parse, JSON.engine, JSON.parse.
  set (text := String (JSON.char 34) _).
  replace (2 * String.length text + 2) with (S (S (2 * String.length text)))
    by lia.
  subst text.
  rewrite parse_value_string, parse_string_quote_chars. reflexivity.
Qed.

(** ** The properties on concrete requests *)

Import Examples.

Example signature_of_public_push :
  computedSignature secret public_push
  = "sha1=b518e4be76b53b95f442c0f04ebda0b4383a3344".
Proof. vm_compute. reflexivity. Qed.

Example parsed_null_repository :
  JSON_parse null_repository
  = Some (VObj [("repository", VNull);
                ("organization",
                 VObj [("events_url",
                        VStr "https://api.github.com/orgs/o/events")])]).
Proof. vm_compute. reflexivity. Qed.

(** C4, on a service configured for another provider: the response is
    500 with the content type [text/plain] and no body at all, since
    [JSON.stringify] is given the function [fatal] and not the message;
    the log line carries that function too. Nothing is enqueued. *)
Theorem disabled_provider_sends_no_payload :
  let request := request_with (Some "d1")
                   (Some (computedSignature secret public_push))
                   (Some "push") public_push in
  let tr := run "amqp10" (Fulfills VUndefined) request in
  tr = [LogCall Warn [Fun "fatal"; Val (VObj [("delivery", VStr "d1")])];
        StatusCall 500; SetHeaderCall "content-type" "text/plain";
        EndCall None]
  /\ response_after tr
     = {| statusCode := 500;
          response_headers := {["content-type" := "text/plain"]};
          sent := None; finished := true |}
  /\ enqueued tr = []
  /\ JSON_stringify (Val (VStr "Webhooks not enabled"))
     = Some (Quote "Webhooks not enabled").
Proof.
  cbv zeta. unfold run, setup, post. cbn [provider service strict_eq_string].
  repeat split.
Qed.

(** C5 on a push without its signature header. *)
Lemma missing_header_is_rejected_witness :
  let tr := run "webhook" Pending
              (request_with (Some "d1") None (Some "push") public_push) in
  response_after tr
    = {| statusCode := 400;
         response_headers := {["content-type" := "text/plain"]};
         sent := Some (Quote "Missing signature or event type on GitHub webhook");
         finished := true |}
  /\ enqueued tr = [].
Proof.
  cbv zeta. unfold run.
  apply (missing_header_is_rejected (service "webhook" Pending) secret now
           (request_with (Some "d1") None (Some "push") public_push)).
  - reflexivity.
  - left. reflexivity.
Defined.

(** C3 fails as stated: a [check_run] delivery without a signature is
    answered 400, not 200. *)
Lemma ignored_event_without_signature :
  let request := request_with (Some "d1") None (Some "check_run") "{}" in
  let tr := run "webhook" Pending request in
  headers request !! "x-github-event" = Some "check_run"
  /\ headers request !! "x-hub-signature" = None
  /\ statusCode (response_after tr) = 400%Z
  /\ finished (response_after tr) = true.
Proof. cbv zeta. repeat split. Qed.

(** C3, as amended, on a [check_suite] delivery with a signature that
    is no signature at all. *)
Lemma ignored_event_is_acknowledged_witness :
  let tr := run "webhook" Pending
              (request_with (Some "d1") (Some "nonsense") (Some "check_suite")
                 "not even JSON") in
  response_after tr = ok_response /\ enqueued tr = [] /\ failure tr = None.
Proof.
  cbv zeta. unfold run.
  apply (ignored_event_is_acknowledged (service "webhook" Pending) secret now
           (request_with (Some "d1") (Some "nonsense") (Some "check_suite")
              "not even JSON") "nonsense" "check_suite").
  - reflexivity.
  - reflexivity.
  - reflexivity.
  - right. reflexivity.
Defined.

(** C9 on a push signed [sha1=abc]. *)
Lemma wrong_length_signature_throws_witness :
  let tr := run "webhook" (Fulfills VUndefined)
              (request_with (Some "d1") (Some "sha1=abc") (Some "push")
                 public_push) in
  failure tr = Some RangeError_length
  /\ enqueued tr = []
  /\ response_calls tr = []
  /\ response_after tr = fresh_response.
Proof.
  cbv zeta. unfold run.
  apply (wrong_length_signature_throws (service "webhook" (Fulfills VUndefined))
           secret now
           (request_with (Some "d1") (Some "sha1=abc") (Some "push") public_push)
           "sha1=abc" "push").
  - reflexivity.
  - reflexivity.
  - reflexivity.
  - reflexivity.
  - vm_compute. lia.
Defined.

(** C10 fails as stated: the body [null] is a JSON text with neither a
    [repository] nor an [organization] key, and the request passes the
    provider, header and ignore-list checks and the comparison of the
    signatures; the run ends in the TypeError of reading [repository] of
    [null], on line 40, before anything of an organization is read. *)
Lemma null_body_throws_reading_repository :
  let request := request_with (Some "d1") (Some forged) (Some "push")
                   (JSON.text "null") in
  let tr := run "webhook" (Fulfills VUndefined) request in
  JSON_parse (body request) = Some VNull
  /\ has_key (parsed (body request)) "repository" = false
  /\ has_key (parsed (body request)) "organization" = false
  /\ tr = [received_line request;
           mismatch_line request forged
             (computedSignature secret (body request)) "push";
           NextCall (TypeError_read "repository" VNull)]
  /\ failure tr = Some (TypeError_read "repository" VNull)
  /\ failure tr <> Some (TypeError_read "events_url" VUndefined).
Proof. cbv zeta. vm_compute. repeat split. discriminate. Qed.

(** C10, as amended, on a ping whose body names neither a repository nor
    an organization. *)
Lemma no_repository_no_organization_throws_witness :
  let request := request_with (Some "d1") (Some forged) (Some "ping") no_owner in
  let tr := run "webhook" (Fulfills VUndefined) request in
  (exists e, failure tr = Some e)
  /\ enqueued tr = []
  /\ response_calls tr = []
  /\ (length (Buffer forged)
        = length (Buffer (computedSignature secret (body request))) ->
      failure tr = Some (TypeError_read "events_url" VUndefined))
  /\ (length (Buffer forged)
        <> length (Buffer (computedSignature secret (body request))) ->
      failure tr = Some RangeError_length).
Proof.
  cbv zeta. unfold run.
  apply (no_repository_no_organization_throws
           (service "webhook" (Fulfills VUndefined)) secret now
           (request_with (Some "d1") (Some forged) (Some "ping") no_owner)
           forged "ping" (VObj [("zen", VStr "Keep it logically awesome.")])).
  all: vm_compute; reflexivity.
Defined.

(** C1, on a push signed [sha1=abc]. The request passes the provider
    and header checks, its event type is not ignored and its signature
    does not match the computed one; yet the run ends in the RangeError
    that [timingSafeEqual] throws for buffers of different lengths:
    the mismatch is not logged, nothing is enqueued and the response is
    not touched. The same push signed with forty zeros, a mismatch of
    the length of the computed signature, is logged, enqueued and
    answered 200. *)
Theorem short_mismatch_is_not_answered :
  let short := request_with (Some "d1") (Some "sha1=abc") (Some "push")
                 public_push in
  let long := request_with (Some "d1") (Some forged) (Some "push")
                public_push in
  let tr := run "webhook" (Fulfills VUndefined) short in
  let tr' := run "webhook" (Fulfills VUndefined) long in
  (truthy_header short "x-hub-signature" = Some "sha1=abc"
   /\ truthy_header short "x-github-event" = Some "push"
   /\ includes ignored_events "push" = false
   /\ computedSignature secret (body short)
      = "sha1=b518e4be76b53b95f442c0f04ebda0b4383a3344")
  /\ (tr = [received_line short; NextCall RangeError_length]
      /\ enqueued tr = []
      /\ response_calls tr = []
      /\ response_after tr = fresh_response)
  /\ (tr' = [received_line long;
             mismatch_line long forged
               "sha1=b518e4be76b53b95f442c0f04ebda0b4383a3344" "push";
             QueueCall
               (result_at_queue now long "push" (parsed public_push)
                  "https://api.github.com/repos/o/r/events" false)
               "events";
             PromiseSettled (inr VUndefined);
             LogCall Info
               [Val (VStr "Queued");
                Val (VStr "Webhook event for https://api.github.com/repos/o/r/events");
                delivery_of long];
             StatusCall 200; EndCall None]
      /\ map snd (enqueued tr') = ["events"]
      /\ response_after tr' = ok_response
      /\ failure tr' = None).
Proof. cbv zeta. vm_compute. repeat split. Qed.

(** The mismatch of equal length, on a push for a private repository
    signed with forty zeros. *)
Lemma equal_length_mismatch_on_private_push :
  let request := request_with (Some "d1") (Some forged) (Some "push")
                   private_push in
  let tr := run "webhook" (Fulfills VUndefined) request in
  let item := result_at_queue now request "push" (parsed private_push)
                "https://api.github.com/repos/o/s/events" true in
  tr = [received_line request;
        mismatch_line request forged
          "sha1=3b3d79cb47f85a6db5b52d425c70c7ca8e46f49f" "push";
        QueueCall item "events"]
       ++ after_queue request "https://api.github.com/repos/o/s/events"
            (@Fulfills JSON.decimal VUndefined)
  /\ enqueued tr = [(item, "events")]
  /\ response_after tr = ok_response
  /\ failure tr = None.
Proof.
  cbv zeta.
  destruct (equal_length_mismatch_is_only_logged
              (service "webhook" (Fulfills VUndefined))
              secret now
              (request_with (Some "d1") (Some forged) (Some "push")
                 private_push)
              forged "push" (parsed private_push)
              (field (parsed private_push) "repository")
              (VStr "https://api.github.com/repos/o/s/events")
              "https://api.github.com/repos/o/s/events")
    as (Htr & Hq & Hok).
  - reflexivity.
  - reflexivity.
  - reflexivity.
  - reflexivity.
  - vm_compute. discriminate.
  - vm_compute. reflexivity.
  - vm_compute. reflexivity.
  - split; vm_compute; reflexivity.
  - reflexivity.
  - split; [exact Htr | split; [exact Hq | exact (Hok VUndefined eq_refl)]].
Defined.

(** C2 on a push for a public repository that carries the computed
    signature. *)
Lemma correct_signature_public_push_witness :
  let request := request_with (Some "d1")
                   (Some "sha1=b518e4be76b53b95f442c0f04ebda0b4383a3344")
                   (Some "push") public_push in
  exists item,
    enqueued (run "webhook" (Fulfills VUndefined) request) = [(item, "events")]
    /\ requiresLock item = Some false
    /\ context item !! "repoType" = None.
Proof.
  cbv zeta. unfold run.
  apply (proj2 (correct_signature_public_push
                  (service "webhook" (Fulfills VUndefined)) secret now
                  (request_with (Some "d1")
                     (Some "sha1=b518e4be76b53b95f442c0f04ebda0b4383a3344")
                     (Some "push") public_push)
                  (parsed public_push)
                  [("id", VNum (JSON.Decimal 1 0)); ("private", VBool false);
                   ("events_url",
                    VStr "https://api.github.com/repos/o/r/events")]
                  (VBool false)
                  (VStr "https://api.github.com/repos/o/r/events")
                  "https://api.github.com/repos/o/r/events")).
  all: vm_compute; reflexivity.
Defined.

(** C6 fails as stated: a body whose [repository] key holds [null] has
    the key, yet the work item is addressed with the events URL of the
    organization; [repository.events_url] cannot even be read there. *)
Lemma null_repository_uses_organization :
  let request := request_with (Some "d1")
                   (Some (computedSignature secret null_repository))
                   (Some "organization") null_repository in
  let tr := run "webhook" (Fulfills VUndefined) request in
  let event := parsed null_repository in
  JSON_parse (body request) = Some event
  /\ has_key event "repository" = true
  /\ map (fun call => url (fst call)) (enqueued tr)
     = ["https://api.github.com/orgs/o/events/d1"]
  /\ claimed_events_url event = inl (TypeError_read "events_url" VNull).
Proof. cbv zeta. vm_compute. repeat split. Qed.

(** C6, as amended, on an organization event delivered without an
    [x-github-delivery] header. *)
Lemma enqueue_target_url_witness :
  let request := request_with None (Some forged) (Some "organization")
                   organization_event in
  let item := result_at_queue now request "organization"
                (parsed organization_event)
                "https://api.github.com/orgs/o/events" false in
  url item = "https://api.github.com/orgs/o/events/undefined"
  /\ exists event repository eventsUrl urlText deliveryText,
       JSON_parse (body request) = Some event
       /\ Get event "repository" = inr repository
       /\ (if ToBoolean repository
           then Get repository "events_url" = inr eventsUrl
           else exists organization,
                  Get event "organization" = inr organization
                  /\ Get organization "events_url" = inr eventsUrl)
       /\ ToString eventsUrl = inr urlText
       /\ ToString (header request "x-github-delivery") = inr deliveryText
       /\ url item = urlText +:+ "/" +:+ deliveryText
       /\ (ToBoolean repository = has_key event "repository" ->
           claimed_events_url event = inr eventsUrl).
Proof.
  split; [reflexivity|].
  apply (enqueue_target_url (service "webhook" (Fulfills VUndefined)) secret now
           (request_with None (Some forged) (Some "organization")
              organization_event)
           _ "events").
  vm_compute. right. right. left. reflexivity.
Defined.

(** C7 on a push for a private repository. *)
Lemma private_repository_is_marked_witness :
  let request := request_with (Some "d1") (Some forged) (Some "push")
                   private_push in
  let item := result_at_queue now request "push" (parsed private_push)
                "https://api.github.com/repos/o/s/events" true in
  enqueued (run "webhook" Pending request) = [(item, "events")]
  /\ context item !! "repoType" = Some (VStr "private").
Proof.
  split; [vm_compute; reflexivity|].
  apply (private_repository_is_marked (service "webhook" Pending) secret now
           (request_with (Some "d1") (Some forged) (Some "push") private_push)
           _ "events" (parsed private_push)
           (field (parsed private_push) "repository")).
  - vm_compute. right. right. left. reflexivity.
  - vm_compute. reflexivity.
  - vm_compute. reflexivity.
  - vm_compute. reflexivity.
Defined.

(** C8 on a signed push whose enqueue call is rejected. *)
Lemma response_waits_for_queue_witness :
  let request := request_with (Some "d1")
                   (Some "sha1=b518e4be76b53b95f442c0f04ebda0b4383a3344")
                   (Some "push") public_push in
  let tr := run "webhook" (Rejects (VStr "queue is down")) request in
  let item := result_at_queue now request "push" (parsed public_push)
                "https://api.github.com/repos/o/r/events" false in
  In (QueueCall item "events") tr
  /\ failure tr = Some (Rejected (VStr "queue is down"))
  /\ response_calls tr = [].
Proof.
  cbv zeta.
  assert (Hin : In (QueueCall
                      (result_at_queue now
                         (request_with (Some "d1")
                            (Some "sha1=b518e4be76b53b95f442c0f04ebda0b4383a3344")
                            (Some "push") public_push)
                         "push" (parsed public_push)
                         "https://api.github.com/repos/o/r/events" false)
                      "events")
                   (run "webhook" (Rejects (VStr "queue is down"))
                      (request_with (Some "d1")
                         (Some "sha1=b518e4be76b53b95f442c0f04ebda0b4383a3344")
                         (Some "push") public_push))).
  { vm_compute. right. left. reflexivity. }
  split; [exact Hin|].
  exact (proj1 (proj2 (response_waits_for_queue _ _ _ _ _ _ Hin))
           (VStr "queue is down") eq_refl).
Defined.

(** The refusal of a disabled provider, on a signed push. *)
Lemma disabled_provider_is_refused_witness :
  let request := request_with (Some "d1")
                   (Some "sha1=b518e4be76b53b95f442c0f04ebda0b4383a3344")
                   (Some "push") public_push in
  let tr := run "amqp10" (Fulfills VUndefined) request in
  tr = [LogCall Warn [Fun "fatal"; delivery_of request];
        StatusCall 500; SetHeaderCall "content-type" "text/plain"; EndCall None]
  /\ response_after tr
     = {| statusCode := 500;
          response_headers := {["content-type" := "text/plain"]};
          sent := None; finished := true |}
  /\ enqueued tr = [].
Proof.
  cbv zeta. unfold run.
  apply (disabled_provider_is_refused (service "amqp10" (Fulfills VUndefined))
           secret now
           (request_with (Some "d1")
              (Some "sha1=b518e4be76b53b95f442c0f04ebda0b4383a3344")
              (Some "push") public_push)).
  vm_compute. discriminate.
Defined.

(** The SyntaxError, on a body cut short. *)
Lemma unparseable_body_throws_witness :
  let tr := run "webhook" (Fulfills VUndefined)
              (request_with (Some "d1") (Some forged) (Some "push") "{bad") in
  failure tr = Some SyntaxError_JSON
  /\ enqueued tr = []
  /\ response_calls tr = [].
Proof.
  cbv zeta. unfold run.
  apply (unparseable_body_throws (service "webhook" (Fulfills VUndefined))
           secret now
           (request_with (Some "d1") (Some forged) (Some "push") "{bad")
           forged "push").
  all: vm_compute; reflexivity.
Defined.

(** The empty signature, on a push. *)
Lemma empty_signature_is_rejected_witness :
  let tr := run "webhook" Pending
              (request_with (Some "d1") (Some "") (Some "push") public_push) in
  statusCode (response_after tr) = 400%Z
  /\ sent (response_after tr)
     = Some (Quote "Missing signature or event type on GitHub webhook")
  /\ enqueued tr = [].
Proof.
  cbv zeta. unfold run.
  apply (empty_signature_is_rejected (service "webhook" Pending) secret now
           (request_with (Some "d1") (Some "") (Some "push") public_push)).
  - reflexivity.
  - reflexivity.
Defined.

(** ** The further properties on concrete requests *)

(** X9 on a push signed with forty zeros. *)
Lemma enqueue_requires_checks_witness :
  let request := request_with (Some "d1") (Some forged) (Some "push")
                   public_push in
  let item := result_at_queue now request "push" (parsed public_push)
                "https://api.github.com/repos/o/r/events" false in
  In (QueueCall item "events") (run "webhook" Pending request)
  /\ exists signature,
       headers request !! "x-hub-signature" = Some signature
       /\ String.length signature = 45.
Proof.
  cbv zeta. unfold run.
  assert (Hin : In (QueueCall
                      (result_at_queue now
                         (request_with (Some "d1") (Some forged) (Some "push")
                            public_push)
                         "push" (parsed public_push)
                         "https://api.github.com/repos/o/r/events" false)
                      "events")
                   (setup (service "webhook" Pending) secret now
                      (request_with (Some "d1") (Some forged) (Some "push")
                         public_push))).
  { vm_compute. right. right. left. reflexivity. }
  split; [exact Hin|].
  exact (proj1 (proj2 (proj2 (enqueue_requires_checks _ _ _ _ _ _ Hin)))).
Defined.

(** X10 on the same push. *)
Lemma work_item_content_witness :
  let request := request_with (Some "d1") (Some forged) (Some "push")
                   public_push in
  let item := result_at_queue now request "push" (parsed public_push)
                "https://api.github.com/repos/o/r/events" false in
  enqueued (run "webhook" Pending request) = [(item, "events")]
  /\ type item = "event_trigger"
  /\ requiresLock item = Some false
  /\ exists event eventType,
       JSON_parse (body request) = Some event
       /\ headers request !! "x-github-event" = Some eventType
       /\ payload item
          = Some {| payload_body := event; etag := 1; fetchedAt := now;
                    payload_type := eventType;
                    deliveryId := header request "x-github-delivery" |}.
Proof.
  cbv zeta. unfold run. split; [vm_compute; reflexivity|].
  apply (work_item_content (service "webhook" Pending) secret now
           (request_with (Some "d1") (Some forged) (Some "push") public_push)
           _ "events").
  vm_compute. right. right. left. reflexivity.
Defined.

(** X11 on a push whose repository has [private] set to the number 1:
    the work item is marked private. *)
Lemma private_mark_is_exact_witness :
  let request := request_with (Some "d1") (Some forged) (Some "push")
                   Cases.numeric_private in
  let item := result_at_queue now request "push"
                (parsed Cases.numeric_private)
                "https://api.github.com/repos/o/t/events" true in
  enqueued (run "webhook" Pending request) = [(item, "events")]
  /\ context item !! "repoType" = Some (VStr "private")
  /\ exists event repository,
       JSON_parse (body request) = Some event
       /\ Get event "repository" = inr repository
       /\ (context item = ∅
           \/ context item = {["repoType" := VStr "private"]})
       /\ (context item !! "repoType" = Some (VStr "private")
           <-> ToBoolean repository = true
               /\ exists p, Get repository "private" = inr p
                            /\ ToBoolean p = true).
Proof.
  cbv zeta. unfold run.
  split; [vm_compute; reflexivity|]. split; [vm_compute; reflexivity|].
  apply (private_mark_is_exact (service "webhook" Pending) secret now
           (request_with (Some "d1") (Some forged) (Some "push")
              Cases.numeric_private)
           _ "events").
  vm_compute. right. right. left. reflexivity.
Defined.

(** X12 on a push whose repository has no member, delivered without
    [x-github-delivery]. *)
Lemma url_parts_are_not_checked_witness :
  let request := request_with None (Some forged) (Some "push")
                   Cases.bare_repository in
  exists item,
    enqueued (run "webhook" Pending request) = [(item, "events")]
    /\ url item = "undefined/undefined".
Proof.
  cbv zeta. unfold run.
  apply (url_parts_are_not_checked (service "webhook" Pending) secret now
           (request_with None (Some forged) (Some "push") Cases.bare_repository)
           forged "push" (parsed Cases.bare_repository) []).
  all: vm_compute; reflexivity.
Defined.

(** X13 on a push for a private repository, once with its computed
    signature and once with forty zeros, under two secrets. *)
Lemma signature_content_decides_nothing_witness :
  let signed := request_with (Some "d1")
                  (Some (computedSignature secret private_push))
                  (Some "push") private_push in
  let unsigned := request_with (Some "d1") (Some forged) (Some "push")
                    private_push in
  let tr1 := setup (service "webhook" (Fulfills VUndefined)) secret now signed in
  let tr2 := setup (service "webhook" (Fulfills VUndefined)) "another secret"
               now unsigned in
  enqueued tr1 = enqueued tr2
  /\ response_after tr1 = response_after tr2
  /\ failure tr1 = failure tr2.
Proof.
  cbv zeta.
  apply (signature_content_decides_nothing
           (service "webhook" (Fulfills VUndefined)) secret "another secret" now
           (request_with (Some "d1")
              (Some (computedSignature secret private_push))
              (Some "push") private_push)
           (request_with (Some "d1") (Some forged) (Some "push") private_push)
           (computedSignature secret private_push) forged).
  - reflexivity.
  - intros name Hname. unfold request_with, with_header, headers.
    rewrite !lookup_insert. repeat case_decide; congruence.
  - vm_compute. reflexivity.
  - vm_compute. reflexivity.
  - vm_compute. reflexivity.
Defined.

(** X14 on a push signed with forty zeros: the mismatch is logged. *)
Lemma mismatch_is_logged_iff_witness :
  let request := request_with (Some "d1") (Some forged) (Some "push")
                   public_push in
  In (mismatch_line request forged
        (computedSignature secret (body request)) "push")
     (run "webhook" Pending request)
  <-> String.length forged = 45
      /\ forged <> computedSignature secret (body request).
Proof.
  cbv zeta. unfold run.
  apply (mismatch_is_logged_iff (service "webhook" Pending) secret now
           (request_with (Some "d1") (Some forged) (Some "push") public_push)
           forged "push").
  all: reflexivity.
Defined.
